(** * load_alex_emails: the dataset loader script

    A shallow embedding of [Week 9 Project/load_alex_emails.py]: the three
    functions [find_file_by_name], [load_csv] and [main], over a model of
    the world the script touches (a directory tree, the current directory,
    standard output) and of the library calls it makes (pathlib, pandas,
    argparse).

    Strings are byte strings ([string]), the UTF-8 bytes of a Python
    [str]; integers are [Z]; an exception is a value of [Exception]; a
    statement sequence that prints, reads the filesystem or raises is a
    computation in the state-and-exception monad [M]; a generator is the
    list of the items it produces.

    The filesystem is a tree of directories and regular files on a
    kernel that limits the name of an entry to [NAME_MAX] bytes.  It has
    no symbolic links and no permissions (every directory can be read
    and searched), the length of a whole path is not limited
    ([PATH_MAX]), and standard output takes every line. *)

From Stdlib Require Import String Ascii List Bool Arith ZArith Lia.
From Stdlib Require Import DecimalString.
Import ListNotations.

Local Open Scope string_scope.
Local Open Scope list_scope.

(* ===================================================================== *)
(** ** Python strings *)
(* ===================================================================== *)

Module Str.

Definition nl : string := String (ascii_of_nat 10) EmptyString.

(** [s.startswith(p)] *)
Fixpoint startswith (p s : string) : bool :=
  match p, s with
  | EmptyString, _ => true
  | String a p', String b s' => Ascii.eqb a b && startswith p' s'
  | String _ _, EmptyString => false
  end.

(** [sub in s] *)
Fixpoint contains (sub s : string) : bool :=
  startswith sub s ||
  match s with
  | EmptyString => false
  | String _ s' => contains sub s'
  end.

(** [s.endswith(p)] *)
Fixpoint endswith (p s : string) : bool :=
  String.eqb p s ||
  match s with
  | EmptyString => false
  | String _ s' => endswith p s'
  end.

(** [c in s] for a single character. *)
Fixpoint has_char (c : ascii) (s : string) : bool :=
  match s with
  | EmptyString => false
  | String b s' => Ascii.eqb c b || has_char c s'
  end.

(** [s.split(sep)] for a one-character separator: never empty,
    [split "/" "a//b" = ["a"; ""; "b"]]. *)
Fixpoint split (sep : ascii) (s : string) : list string :=
  match s with
  | EmptyString => [EmptyString]
  | String c s' =>
      if Ascii.eqb c sep then EmptyString :: split sep s'
      else match split sep s' with
           | [] => [String c EmptyString]
           | w :: ws => String c w :: ws
           end
  end.

(** [sep.join(l)] *)
Fixpoint join (sep : string) (l : list string) : string :=
  match l with
  | [] => EmptyString
  | [x] => x
  | x :: rest => x ++ sep ++ join sep rest
  end.

(** [x in l] for a list of strings. *)
Definition mem (x : string) (l : list string) : bool :=
  existsb (String.eqb x) l.

(** [str(n)] for a non-negative integer. *)
Definition of_nat (n : nat) : string :=
  NilZero.string_of_uint (Nat.to_uint n).

(** Truth value of an optional string ([None] and [''] are false). *)
Definition truthy (o : option string) : bool :=
  match o with
  | None => false
  | Some s => negb (String.eqb s EmptyString)
  end.

End Str.

(* ===================================================================== *)
(** ** Paths (pathlib.PurePosixPath) *)
(* ===================================================================== *)

(** A path is its anchor and its components, as [Path(s)] parses them:
    separators are collapsed and ["."] components dropped, [".."] is
    kept.  The anchor is [''] for a relative path and ['/'] for an
    absolute one; exactly two leading slashes are kept as the anchor
    ['//'] ([double_slash]), three or more are one. *)
Record Path : Type := Path3 {
  absolute : bool;
  double_slash : bool;
  parts : list string
}.

(** The path with anchor [''] or ['/'] and the given components. *)
Abbreviation mkPath a ps := (Path3 a false ps).

Definition slash : ascii := "/"%char.

Definition keep_part (x : string) : bool :=
  negb (String.eqb x "") && negb (String.eqb x ".").

Definition parse_parts (s : string) : list string :=
  filter keep_part (Str.split slash s).

(** [Path(s)] *)
Definition Path_ (s : string) : Path :=
  Path3 (Str.startswith "/" s)
        (Str.startswith "//" s && negb (Str.startswith "///" s))
        (parse_parts s).

(** The anchor as it is written. *)
Definition anchor (p : Path) : string :=
  if absolute p then (if double_slash p then "//" else "/") else "".

(** [str(p)] *)
Definition str (p : Path) : string :=
  match absolute p, parts p with
  | false, [] => "."
  | false, ps => Str.join "/" ps
  | true, ps => anchor p ++ Str.join "/" ps
  end.

(** [p.name]: the final component, [''] when there is none. *)
Definition name (p : Path) : string := last (parts p) "".

(** [p / rel] for a list of components. *)
Definition below (p : Path) (rel : list string) : Path :=
  Path3 (absolute p) (double_slash p) (parts p ++ rel).

(** [p / child] for one component. *)
Definition child (p : Path) (c : string) : Path := below p [c].

(** [p == q]: the same anchor and the same components. *)
Definition Path_eqb (p q : Path) : bool :=
  String.eqb (anchor p) (anchor q) &&
  (length (parts p) =? length (parts q))%nat &&
  forallb (fun xy => String.eqb (fst xy) (snd xy)) (combine (parts p) (parts q)).

(* ===================================================================== *)
(** ** The filesystem *)
(* ===================================================================== *)

(** A directory lists its entries in the order [scandir] reports them. *)
#[warnings="-register-all"]
Inductive node : Type :=
| File (content : string)
| Dir (entries : list (string * node)).

Fixpoint lookup (c : string) (es : list (string * node)) : option node :=
  match es with
  | [] => None
  | (n, x) :: rest => if String.eqb c n then Some x else lookup c rest
  end.

(** The node at a list of plain component names below [t]. *)
Fixpoint get (t : node) (ps : list string) : option node :=
  match ps with
  | [] => Some t
  | c :: rest =>
      match t with
      | File _ => None
      | Dir es =>
          match lookup c es with
          | Some x => get x rest
          | None => None
          end
      end
  end.

(** Kernel path resolution: walk the components [ps] from the directory
    named by [acc]; every prefix has to be an existing directory, [".."]
    goes to the parent (the root is its own parent).  The result is the
    canonical component list of the path. *)
Fixpoint real (t : node) (acc ps : list string) : option (list string) :=
  match ps with
  | [] => Some acc
  | c :: rest =>
      match get t acc with
      | Some (Dir es) =>
          if String.eqb c ".." then real t (removelast acc) rest
          else match lookup c es with
               | Some _ => real t (acc ++ [c]) rest
               | None => None
               end
      | _ => None
      end
  end.

(** The longest name a directory entry can have, in bytes. *)
Definition NAME_MAX : nat := 255.

(** The errors the kernel answers a path lookup with. *)
Inductive Errno : Type := ENOENT | ENOTDIR | ENAMETOOLONG.

(** [os.strerror] *)
Definition strerror (e : Errno) : string :=
  match e with
  | ENOENT => "No such file or directory"
  | ENOTDIR => "Not a directory"
  | ENAMETOOLONG => "File name too long"
  end.

(** The error of a walk that fails, decided at the first component
    that cannot be followed: the walk stands on a file ([ENOTDIR]), or
    the directory has no such entry, and then the name is either longer
    than any entry can be ([ENAMETOOLONG]) or just not there
    ([ENOENT]). *)
Fixpoint walk_errno (t : node) (acc ps : list string) : Errno :=
  match ps with
  | [] => ENOENT
  | c :: rest =>
      match get t acc with
      | Some (Dir es) =>
          if String.eqb c ".." then walk_errno t (removelast acc) rest
          else match lookup c es with
               | Some _ => walk_errno t (acc ++ [c]) rest
               | None =>
                   if (NAME_MAX <? String.length c)%nat then ENAMETOOLONG
                   else ENOENT
               end
      | Some (File _) => ENOTDIR
      | None => ENOENT
      end
  end.

(* ===================================================================== *)
(** ** The world, exceptions and the monad of statements *)
(* ===================================================================== *)

(** An exception object: its class and [str(exc)]. *)
Record Exception : Type := mkExc { exc_class : string; exc_msg : string }.

(** The filesystem requests the script makes, in program order. *)
Inductive Call : Type :=
| CallExists (p : Path)
| CallRglob (root : Path) (pattern : string)
| CallOpenRead (p : Path)
| CallOpenWrite (p : Path).

(** [fs] is the tree below the filesystem root, [cwd] the components of
    the current directory, [stdout] the text of every [print] call so far
    (one entry per call, without the final newline), [calls] the log of
    filesystem requests. *)
Record World : Type := mkWorld {
  fs : node;
  cwd : list string;
  stdout : list string;
  calls : list Call
}.

Inductive Res (A : Type) : Type :=
| Ok (a : A)
| Raise (e : Exception).
Arguments Ok {A} a.
Arguments Raise {A} e.

Definition M (A : Type) : Type := World -> Res A * World.

Definition ret {A} (a : A) : M A := fun w => (Ok a, w).

Definition bind {A B} (m : M A) (k : A -> M B) : M B :=
  fun w =>
    match m w with
    | (Ok a, w') => k a w'
    | (Raise e, w') => (Raise e, w')
    end.

(** A result computed without touching the world. *)
Definition lift {A} (r : Res A) : M A := fun w => (r, w).

(** [try: m  except Exception as exc: h exc].  Every value of
    [Exception] stands for an instance of Python's [Exception];
    [KeyboardInterrupt] and [SystemExit] are not among them. *)
Definition try_except {A} (m : M A) (h : Exception -> M A) : M A :=
  fun w =>
    match m w with
    | (Ok a, w') => (Ok a, w')
    | (Raise e, w') => h e w'
    end.

Declare Scope py_scope.
Delimit Scope py_scope with py.
Notation "x <- m ;; k" := (bind m (fun x => k))
  (at level 61, m at next level, right associativity) : py_scope.
Notation "m ;; k" := (bind m (fun _ => k))
  (at level 61, right associativity) : py_scope.
Local Open Scope py_scope.

(** [print(s)] *)
Definition print (s : string) : M unit :=
  fun w => (Ok tt, mkWorld (fs w) (cwd w) (stdout w ++ [s]) (calls w)).

Definition log (c : Call) (w : World) : World :=
  mkWorld (fs w) (cwd w) (stdout w) (calls w ++ [c]).

(** The components of [p] from the filesystem root. *)
Definition abs_parts (w : World) (p : Path) : list string :=
  if absolute p then parts p else cwd w ++ parts p.

(** The node [p] names, when the walk to it succeeds. *)
Definition locate (w : World) (p : Path) : option node :=
  match real (fs w) [] (abs_parts w p) with
  | Some r => get (fs w) r
  | None => None
  end.

(** Where the walk to [p] starts: at the root for an absolute path, at
    the current directory for a relative one, when it is still there. *)
Definition start (w : World) (p : Path) : option (list string) :=
  if absolute p then Some [] else real (fs w) [] (cwd w).

(** The error of the walk to a path that cannot be reached; a current
    directory that is gone gives [ENOENT]. *)
Definition stat_errno (w : World) (p : Path) : Errno :=
  match start w p with
  | Some r => walk_errno (fs w) r (parts p)
  | None => ENOENT
  end.

(** [os.stat(p)], as far as the script needs it: the node [p] names, or
    the error of the walk. *)
Definition os_stat (w : World) (p : Path) : Errno + node :=
  match locate w p with
  | Some n => inr n
  | None => inl (stat_errno w p)
  end.

(** [_ignore_error]: the errors to which [exists] and [is_dir] answer
    [False]; any other error they raise again. *)
Definition ignore_error (e : Errno) : bool :=
  match e with
  | ENOENT | ENOTDIR => true
  | ENAMETOOLONG => false
  end.

Definition path_exists (w : World) (p : Path) : bool :=
  match locate w p with Some _ => true | None => false end.

Definition path_is_dir (w : World) (p : Path) : bool :=
  match locate w p with Some (Dir _) => true | _ => false end.

Definition path_is_file (w : World) (p : Path) : bool :=
  match locate w p with Some (File _) => true | _ => false end.

(** [Path('.').resolve()]: the current directory as an absolute path;
    [os.getcwd] fails when that directory is gone. *)
Definition resolve_cwd : M Path :=
  fun w =>
    match get (fs w) (cwd w) with
    | Some (Dir _) => (Ok (mkPath true (cwd w)), w)
    | _ => (Raise (mkExc "OSError" (strerror ENOENT)), w)
    end.

(* ===================================================================== *)
(** ** Tables (pandas.DataFrame) *)
(* ===================================================================== *)

Definition cell : Type := string.

(** The row labels: the default positional index [RangeIndex(stop)], or
    the values of a column promoted by [set_index]. *)
Inductive Index : Type :=
| RangeIndex (stop : nat)
| ColumnIndex (label : string) (values : list cell).

Record DataFrame : Type := mkDF {
  index : Index;
  columns : list string;
  rows : list (list cell)
}.

(** [df.shape] *)
Definition shape (df : DataFrame) : nat * nat :=
  (length (rows df), length (columns df)).

Fixpoint position (c : string) (cols : list string) : option nat :=
  match cols with
  | [] => None
  | x :: rest =>
      if String.eqb c x then Some 0
      else match position c rest with
           | Some k => Some (S k)
           | None => None
           end
  end.

Fixpoint drop_nth {A} (k : nat) (l : list A) : list A :=
  match l, k with
  | [], _ => []
  | _ :: rest, 0 => rest
  | x :: rest, S k' => x :: drop_nth k' rest
  end.

(** The values of the column at position [k]. *)
Definition column_values (k : nat) (df : DataFrame) : list cell :=
  map (fun r => nth k r "") (rows df).

(** [df.set_index(c)]: the column becomes the index and leaves the
    columns; [KeyError] when there is no such column. *)
Definition set_index (df : DataFrame) (c : string) : Res DataFrame :=
  match position c (columns df) with
  | Some k =>
      Ok (mkDF (ColumnIndex c (column_values k df))
               (drop_nth k (columns df))
               (map (drop_nth k) (rows df)))
  | None => Raise (mkExc "KeyError" c)
  end.

(** The length of [l[:n]] for a list of length [len]. *)
Definition slice_stop (len : nat) (n : Z) : nat :=
  if (0 <=? n)%Z then Nat.min (Z.to_nat n) len
  else len - Z.to_nat (- n).

Definition slice_to {A} (n : Z) (l : list A) : list A :=
  firstn (slice_stop (length l) n) l.

(** [df.head(n)], that is [df.iloc[:n]]. *)
Definition head (df : DataFrame) (n : Z) : DataFrame :=
  mkDF (match index df with
        | RangeIndex stop => RangeIndex (slice_stop stop n)
        | ColumnIndex c vs => ColumnIndex c (slice_to n vs)
        end)
       (columns df)
       (slice_to n (rows df)).

(* ===================================================================== *)
(** ** Library behaviour the script delegates to *)
(* ===================================================================== *)

(** What the script leaves to its libraries and this development does not
    look into: matching one path component against a shell pattern
    ([fnmatch]), the CSV parser behind [pandas.read_csv] (from the bytes of
    the file and the encoding name to a header and rows, or the exception
    it raises), the rendering of a table ([DataFrame.to_string]), [repr] of
    a string, the bytes [DataFrame.to_pickle] writes for a table and an
    output path, and [str.lower], the lower-case mapping of the Unicode
    tables of the interpreter (on the UTF-8 bytes of the string). *)
Class Library : Type := {
  lower : string -> string;
  fnmatch : string -> string -> bool;
  parse_csv : string -> string -> Exception + (list string * list (list cell));
  to_string : DataFrame -> string;
  repr : string -> string;
  pickle_bytes : DataFrame -> string -> string
}.

(** [repr] of a list of strings. *)
Definition repr_list `{Library} (l : list string) : string :=
  "[" ++ Str.join ", " (map repr l) ++ "]".

(** [repr] of [df.shape]. *)
Definition repr_shape (sh : nat * nat) : string :=
  "(" ++ Str.of_nat (fst sh) ++ ", " ++ Str.of_nat (snd sh) ++ ")".

(** An [OSError] of the given kind about path [p]; the errno prefix of
    the message and the subclass are left out. *)
Definition os_error `{Library} (kind : string) (p : Path) : Exception :=
  mkExc "OSError" (kind ++ ": " ++ repr (str p)).

(** [p.exists()]: [True] when [os.stat] succeeds, [False] when it fails
    with an error [_ignore_error] accepts, and the error itself
    otherwise. *)
Definition exists_ `{Library} (p : Path) : M bool :=
  fun w =>
    let w' := log (CallExists p) w in
    match os_stat w p with
    | inr _ => (Ok true, w')
    | inl e =>
        if ignore_error e then (Ok false, w')
        else (Raise (os_error (strerror e) p), w')
    end.

(* ===================================================================== *)
(** ** Globbing (pathlib.Path.rglob) *)
(* ===================================================================== *)

(** What a generator does when it is asked for its next item: it yields
    a path, or raises and is finished.  A list of items is read from the
    left, and nothing after a [Throw] is ever asked for. *)
Inductive Item : Type :=
| Yield (p : Path)
| Throw (e : Exception).


(** [_is_wildcard_pattern] *)
Definition is_wildcard_pattern (pat : string) : bool :=
  Str.has_char "*"%char pat || Str.has_char "?"%char pat ||
  Str.has_char "["%char pat.

(** The directories of the tree [n] at path [p], parents before children,
    siblings in [scandir] order ([_iterate_directories]). *)
Fixpoint walk_dirs (p : Path) (n : node) : list Path :=
  match n with
  | File _ => []
  | Dir es =>
      p :: (fix go (l : list (string * node)) : list Path :=
              match l with
              | [] => []
              | (c, x) :: rest => walk_dirs (child p c) x ++ go rest
              end) es
  end.

Definition iterate_directories (w : World) (p : Path) : list Path :=
  match locate w p with
  | Some n => walk_dirs p n
  | None => []
  end.

(** Keep the first occurrence of every path (the [yielded] set). *)
Fixpoint dedup_items (seen : list Path) (l : list Item) : list Item :=
  match l with
  | [] => []
  | Yield p :: rest =>
      if existsb (Path_eqb p) seen then dedup_items seen rest
      else Yield p :: dedup_items (p :: seen) rest
  | Throw e :: rest => Throw e :: dedup_items seen rest
  end.

Definition is_Dir (n : node) : bool :=
  match n with Dir _ => true | File _ => false end.

(** The selector chain [_make_selector(pats)] applied to [p]
    ([_select_from]): [''] ends the chain, ['**'] descends into every
    directory, a wildcard part is matched against the entries of the
    directory, any other part is tested as it is, with [is_dir] when
    more parts follow and with [exists] otherwise, and the error of that
    test, when it is not ignored, ends the iteration. *)
Fixpoint select_from `{Library} (w : World) (pats : list string) (p : Path)
  : list Item :=
  match pats with
  | [] => [Yield p]
  | pat :: rest =>
      let dironly := match rest with [] => false | _ :: _ => true end in
      if String.eqb pat "" then [Yield p]
      else if String.eqb pat "**" then
        dedup_items [] (flat_map (select_from w rest) (iterate_directories w p))
      else if is_wildcard_pattern pat then
        match locate w p with
        | Some (Dir es) =>
            flat_map (fun e =>
                        if (negb dironly || is_Dir (snd e)) && fnmatch pat (fst e)
                        then select_from w rest (child p (fst e))
                        else []) es
        | _ => []
        end
      else
        let q := child p pat in
        match os_stat w q with
        | inr n =>
            if negb dironly || is_Dir n then select_from w rest q else []
        | inl e =>
            if ignore_error e then [] else [Throw (os_error (strerror e) q)]
        end
  end.

(** A part that contains ['**'] without being it is refused. *)
Definition bad_part (pat : string) : bool :=
  Str.contains "**" pat && negb (String.eqb pat "**").

(** The parts of a pattern; a final separator leaves an empty part. *)
Definition pattern_parts (pattern : string) : list string :=
  parse_parts pattern ++ (if Str.endswith "/" pattern then [""] else []).

(** The items of the generator [root.rglob(pattern)]: an absolute
    pattern is refused, and so is a part with a misplaced ['**']; the
    parts of any other pattern follow ['**'] in the selector chain,
    started at the root when [is_dir] says it is a directory. *)
Definition glob_result `{Library} (w : World) (root : Path) (pattern : string)
  : list Item :=
  if Str.startswith "/" pattern then
    [Throw (mkExc "NotImplementedError" "Non-relative patterns are unsupported")]
  else if existsb bad_part (pattern_parts pattern) then
    [Throw (mkExc "ValueError"
              "Invalid pattern: '**' can only be an entire path component")]
  else
    match os_stat w root with
    | inr (Dir _) => select_from w ("**" :: pattern_parts pattern) root
    | inr (File _) => []
    | inl e =>
        if ignore_error e then [] else [Throw (os_error (strerror e) root)]
    end.

(** [root.rglob(pattern)]: the call makes the generator and runs none of
    it. *)
Definition rglob `{Library} (root : Path) (pattern : string) : M (list Item) :=
  fun w => (Ok (glob_result w root pattern), log (CallRglob root pattern) w).

(* ===================================================================== *)
(** ** File input and output (pandas.read_csv, DataFrame.to_pickle) *)
(* ===================================================================== *)

(** [pd.read_csv(path, encoding=encoding)]: open the file, parse it and
    build a table with the default positional index. *)
Definition read_csv `{Library} (path : Path) (encoding : string) : M DataFrame :=
  fun w =>
    let w' := log (CallOpenRead path) w in
    match os_stat w path with
    | inl e => (Raise (os_error (strerror e) path), w')
    | inr (Dir _) => (Raise (os_error "Is a directory" path), w')
    | inr (File bytes) =>
        match parse_csv bytes encoding with
        | inl e => (Raise e, w')
        | inr (header, body) =>
            (Ok (mkDF (RangeIndex (length body)) header body), w')
        end
    end.

(** Replace the entry called [c], or add it after the others. *)
Fixpoint set_entry (c : string) (x : node) (es : list (string * node))
  : list (string * node) :=
  match es with
  | [] => [(c, x)]
  | (n, y) :: rest =>
      if String.eqb c n then (n, x) :: rest else (n, y) :: set_entry c x rest
  end.

(** Apply [g] to the entry called [c]. *)
Fixpoint map_entry (c : string) (g : node -> node) (es : list (string * node))
  : list (string * node) :=
  match es with
  | [] => []
  | (n, x) :: rest =>
      if String.eqb c n then (n, g x) :: rest else (n, x) :: map_entry c g rest
  end.

(** The tree [t] with the entries of the directory at [ps] changed by [f]. *)
Fixpoint update (f : list (string * node) -> list (string * node))
  (t : node) (ps : list string) {struct ps} : node :=
  match t with
  | File bytes => File bytes
  | Dir es =>
      match ps with
      | [] => Dir (f es)
      | c :: rest => Dir (map_entry c (fun x => update f x rest) es)
      end
  end.

(** [open(p, 'wb').write(bytes)] on the tree: the parent has to be an
    existing directory and the target must not be a directory; a file
    that is there is replaced, and a new entry needs a name of at most
    [NAME_MAX] bytes. [None] when the kernel refuses. *)
Definition write_file (t : node) (ps : list string) (bytes : string)
  : option node :=
  match ps with
  | [] => None
  | _ :: _ =>
      let final := last ps "" in
      if String.eqb final ".." then None
      else match real t [] (removelast ps) with
           | Some dir =>
               match get t dir with
               | Some (Dir es) =>
                   match lookup final es with
                   | Some (Dir _) => None
                   | Some (File _) =>
                       Some (update (set_entry final (File bytes)) t dir)
                   | None =>
                       if (NAME_MAX <? String.length final)%nat then None
                       else Some (update (set_entry final (File bytes)) t dir)
                   end
               | _ => None
               end
           | None => None
           end
  end.

(** [df.to_pickle(out)] *)
Definition to_pickle `{Library} (df : DataFrame) (out : Path) : M unit :=
  fun w =>
    let w' := log (CallOpenWrite out) w in
    match write_file (fs w) (abs_parts w out) (pickle_bytes df (str out)) with
    | Some t => (Ok tt, mkWorld t (cwd w') (stdout w') (calls w'))
    | None => (Raise (os_error "Cannot open for writing" out), w')
    end.

(* ===================================================================== *)
(** ** Command-line arguments (argparse) *)
(* ===================================================================== *)

(** The namespace [parser.parse_args] returns for the five options of
    the script. *)
Record Namespace : Type := mkArgs {
  args_path : option string;
  args_encoding : string;
  args_no_index : bool;
  args_head : Z;
  args_save_pickle : option string
}.

(** The [default=] of every [add_argument]. *)
Definition defaults : Namespace :=
  mkArgs None "latin-1" false 5 None.

Definition is_digit (c : ascii) : bool :=
  let n := nat_of_ascii c in ((48 <=? n) && (n <=? 57))%nat.

Fixpoint digits_value (acc : Z) (s : string) : option Z :=
  match s with
  | EmptyString => Some acc
  | String c s' =>
      if is_digit c
      then digits_value (10 * acc + Z.of_nat (nat_of_ascii c - 48)) s'
      else None
  end.

(** [int(s)] for an optional sign and ASCII digits. *)
Definition parse_int (s : string) : option Z :=
  match s with
  | EmptyString => None
  | String c s' =>
      if Ascii.eqb c "-" then
        match s' with
        | EmptyString => None
        | _ => option_map Z.opp (digits_value 0 s')
        end
      else if Ascii.eqb c "+" then
        match s' with
        | EmptyString => None
        | _ => digits_value 0 s'
        end
      else digits_value 0 s
  end.

(** Strings argparse takes as the value of an option and never as an
    option: the empty string, one that does not start with ['-'], ['-']
    itself, and a negative integer. *)
Definition plain_argument (s : string) : bool :=
  match s with
  | EmptyString => true
  | String c s' =>
      if Ascii.eqb c "-" then
        match s' with
        | EmptyString => true
        | _ => match digits_value 0 s' with Some _ => true | None => false end
        end
      else true
  end.

(** [parser.parse_args(argv)] on the argument lists made of the option
    strings of the script, written out in full, each value as an
    argument of its own.  A later occurrence of an option replaces an
    earlier one.  [None] stands for every other list: a missing or
    ill-typed value, an unknown option or [-h], where argparse ends the
    run itself, and the spellings argparse also reads (abbreviated
    options, [--opt=value], [-n3]), which are not followed here. *)
Fixpoint parse_from (ns : Namespace) (argv : list string) : option Namespace :=
  match argv with
  | [] => Some ns
  | opt :: rest =>
      if String.eqb opt "--no-index" then
        parse_from (mkArgs (args_path ns) (args_encoding ns) true
                           (args_head ns) (args_save_pickle ns)) rest
      else
        match rest with
        | [] => None
        | v :: rest' =>
            if negb (plain_argument v) then None
            else if String.eqb opt "--path" || String.eqb opt "-p" then
              parse_from (mkArgs (Some v) (args_encoding ns) (args_no_index ns)
                                 (args_head ns) (args_save_pickle ns)) rest'
            else if String.eqb opt "--encoding" || String.eqb opt "-e" then
              parse_from (mkArgs (args_path ns) v (args_no_index ns)
                                 (args_head ns) (args_save_pickle ns)) rest'
            else if String.eqb opt "--head" || String.eqb opt "-n" then
              match parse_int v with
              | Some n =>
                  parse_from (mkArgs (args_path ns) (args_encoding ns)
                                     (args_no_index ns) n (args_save_pickle ns)) rest'
              | None => None
              end
            else if String.eqb opt "--save-pickle" || String.eqb opt "-s" then
              parse_from (mkArgs (args_path ns) (args_encoding ns)
                                 (args_no_index ns) (args_head ns) (Some v)) rest'
            else None
        end
  end.

Definition parse_args (argv : list string) : option Namespace :=
  parse_from defaults argv.

(* ===================================================================== *)
(** ** The script *)
(* ===================================================================== *)

Section Script.

Context `{Library}.

(** [for p in l: if lowered in p.name.lower(): return p], then [None];
    the loop ends with the exception of the generator when it raises. *)
Fixpoint first_containing (lowered : string) (l : list Item)
  : Res (option Path) :=
  match l with
  | [] => Ok None
  | Yield p :: rest =>
      if Str.contains lowered (lower (name p)) then Ok (Some p)
      else first_containing lowered rest
  | Throw e :: _ => Raise e
  end.

(** [find_file_by_name(name, root)] *)
Definition find_file_by_name (name_ : string) (root : Path) : M (option Path) :=
  let candidate := Path_ name_ in
  found <- exists_ candidate ;;
  if found then ret (Some candidate)
  else
    (* Search recursively for exact filename *)
    exact <- rglob root name_ ;;
    match exact with
    | Yield p :: _ => ret (Some p)
    | Throw e :: _ => lift (Raise e)
    | [] =>
        (* Search for files that include the name (case-insensitive) *)
        let lowered := lower name_ in
        csvs <- rglob root "*.csv" ;;
        lift (first_containing lowered csvs)
    end.

(** [load_csv(path, encoding, index_col)] *)
Definition load_csv (path : Path) (encoding : string)
  (index_col : option string) : M DataFrame :=
  df <- read_csv path encoding ;;
  match index_col with
  | Some c =>
      if negb (String.eqb c "") && Str.mem c (columns df)
      then lift (set_index df c)
      else ret df
  | None => ret df
  end.

Definition target_name : string := "Alex_emails_march_04.csv".

(** Lines 54 to 66 of [main]: the path to load, or the exit code
    returned on the spot. *)
Definition resolve_path (args : Namespace) : M (Z + Path) :=
  root <- resolve_cwd ;;
  if Str.truthy (args_path args) then
    let file_path :=
      Path_ (match args_path args with Some s => s | None => "" end) in
    found <- exists_ file_path ;;
    if negb found then
      print ("File not found at provided path: " ++ str file_path) ;;
      ret (inl 2%Z)
    else ret (inr file_path)
  else
    found <- find_file_by_name target_name root ;;
    match found with
    | None =>
        print ("Could not find '" ++ target_name ++ "' under " ++ str root
               ++ ". Use --path to specify location.") ;;
        ret (inl 3%Z)
    | Some p => ret (inr p)
    end.

(** Lines 68 to 73: the loaded table, or exit code 4 after the
    handler printed the exception. *)
Definition load (args : Namespace) (file_path : Path) : M (Z + DataFrame) :=
  print ("Loading CSV: " ++ str file_path
         ++ " (encoding=" ++ args_encoding args ++ ")") ;;
  try_except
    (df <- load_csv file_path (args_encoding args)
             (if args_no_index args then None else Some "email_id") ;;
     ret (inr df))
    (fun exc =>
       print ("Error loading CSV: " ++ exc_msg exc) ;;
       ret (inl 4%Z)).

(** Lines 75 to 77: the summary of the table. *)
Definition summary (df : DataFrame) : M unit :=
  print (Str.nl ++ "DataFrame loaded successfully.") ;;
  print ("Shape: " ++ repr_shape (shape df)) ;;
  print (Str.nl ++ "Columns: " ++ repr_list (columns df)).

(** Lines 78 to 80: the preview, under [if args.head:]. *)
Definition preview (args : Namespace) (df : DataFrame) : M unit :=
  if negb (args_head args =? 0)%Z then
    print (Str.nl ++ "Showing top rows:") ;;
    print (to_string (head df (args_head args)))
  else ret tt.

(** Lines 82 to 85: the snapshot, under [if args.save_pickle:]. *)
Definition snapshot (args : Namespace) (df : DataFrame) : M unit :=
  if Str.truthy (args_save_pickle args) then
    let out :=
      Path_ (match args_save_pickle args with Some s => s | None => "" end) in
    to_pickle df out ;;
    print ("Wrote DataFrame pickle to: " ++ str out)
  else ret tt.

(** Lines 75 to 87. *)
Definition report (args : Namespace) (df : DataFrame) : M Z :=
  summary df ;;
  preview args df ;;
  snapshot args df ;;
  ret 0%Z.

(** [main] from the parsed namespace on (lines 54 to 87). *)
Definition main_args (args : Namespace) : M Z :=
  resolved <- resolve_path args ;;
  match resolved with
  | inl code => ret code
  | inr file_path =>
      loaded <- load args file_path ;;
      match loaded with
      | inl code => ret code
      | inr df => report args df
      end
  end.

(** [main(argv)], for the argument lists [parse_args] reads. *)
Definition main (argv : list string) : option (M Z) :=
  option_map main_args (parse_args argv).

(** How a run ends: the exit status of the process, and the exception
    whose traceback the interpreter prints when one escapes [main]. *)
Record Exit : Type := mkExit { status : Z; traceback : option Exception }.

(** [raise SystemExit(main())] *)
Definition script (args : Namespace) (w : World) : Exit * World :=
  match main_args args w with
  | (Ok code, w') => (mkExit code None, w')
  | (Raise e, w') => (mkExit 1 (Some e), w')
  end.

End Script.

(* ===================================================================== *)
(** ** A library instance and some worlds to run the script on *)
(* ===================================================================== *)

Module Demo.

(** Shell patterns with [*] and [?] only. *)
Fixpoint glob (pat : string) : string -> bool :=
  match pat with
  | EmptyString => fun s => String.eqb s ""
  | String c pat' =>
      if Ascii.eqb c "*" then
        fix star (s : string) : bool :=
          glob pat' s ||
          match s with
          | EmptyString => false
          | String _ s' => star s'
          end
      else if Ascii.eqb c "?" then
        fun s => match s with
                 | EmptyString => false
                 | String _ s' => glob pat' s'
                 end
      else
        fun s => match s with
                 | EmptyString => false
                 | String d s' => Ascii.eqb c d && glob pat' s'
                 end
  end.

(** Comma-separated cells, one record per line, the first the header. *)
Definition parse (bytes encoding : string)
  : Exception + (list string * list (list cell)) :=
  if negb (Str.mem encoding ["latin-1"; "utf-8"]) then
    inl (mkExc "LookupError" ("unknown encoding: " ++ encoding))
  else if String.eqb bytes "" then
    inl (mkExc "EmptyDataError" "No columns to parse from file")
  else
    match map (Str.split ","%char) (Str.split (ascii_of_nat 10) bytes) with
    | [] => inl (mkExc "EmptyDataError" "No columns to parse from file")
    | header :: body => inr (header, body)
    end.

Definition render (df : DataFrame) : string :=
  Str.join Str.nl (map (Str.join " ") (columns df :: rows df)).

Definition quote (s : string) : string := "'" ++ s ++ "'".

(** [c.lower()] on one ASCII character; other bytes are unchanged. *)
Definition lower_ascii (c : ascii) : ascii :=
  let n := nat_of_ascii c in
  if ((65 <=? n) && (n <=? 90))%nat then ascii_of_nat (n + 32) else c.

(** Lower case for ASCII and for the Latin-1 capitals in UTF-8 (the two
    bytes [C3 80] to [C3 9E], the multiplication sign apart); every other
    byte is unchanged. *)
Fixpoint lower_latin (s : string) : string :=
  match s with
  | EmptyString => EmptyString
  | String c s' =>
      if (nat_of_ascii c =? 195)%nat then
        match s' with
        | EmptyString => String c EmptyString
        | String d s'' =>
            let n := nat_of_ascii d in
            String c
              (String (if ((128 <=? n) && (n <=? 158) && negb (n =? 151))%nat
                       then ascii_of_nat (n + 32) else d)
                      (lower_latin s''))
        end
      else String (lower_ascii c) (lower_latin s')
  end.

Definition lib : Library :=
  {| lower := lower_latin;
     fnmatch := glob;
     parse_csv := parse;
     to_string := render;
     repr := quote;
     pickle_bytes := fun df _ => ("pickle:" ++ render df)%string |}.

Definition emails : string :=
  "email_id,subject" ++ Str.nl ++ "e1,hello" ++ Str.nl ++ "e2,offer"
  ++ Str.nl ++ "e3,re: hello" ++ Str.nl ++ "e4,bye".

Definition no_id : string :=
  "sender,subject" ++ Str.nl ++ "ann,hello" ++ Str.nl ++ "bob,offer".

Definition at_home (es : list (string * node)) : World :=
  mkWorld (Dir [("home", Dir [("user", Dir es)])]) ["home"; "user"] [] [].

(** The dataset in the current directory. *)
Definition w_here : World :=
  at_home [("notes.txt", File "todo");
           ("Alex_emails_march_04.csv", File emails);
           ("out", Dir [("old.pkl", File "stale")])].

(** The dataset two directories down, after a directory without it. *)
Definition w_nested : World :=
  at_home [("notes.txt", File "todo");
           ("archive", Dir [("x.csv", File no_id)]);
           ("data", Dir [("march", Dir [("Alex_emails_march_04.csv", File emails)])])].

(** Only a differently named CSV that contains the name, up to case. *)
Definition w_similar : World :=
  at_home [("archive", Dir [("x.csv", File no_id);
                            ("old_ALEX_Emails_March_04.csv", File emails)])].

(** No candidate at all. *)
Definition w_none : World :=
  at_home [("notes.txt", File "todo"); ("archive", Dir [("x.csv", File no_id)])].

(** A directory that carries the name of the dataset. *)
Definition w_dir_here : World :=
  at_home [("Alex_emails_march_04.csv", Dir [("part1.csv", File emails)])].

Definition w_dir_nested : World :=
  at_home [("data", Dir [("Alex_emails_march_04.csv", Dir [])])].

(** A dataset without the [email_id] column. *)
Definition w_no_id : World :=
  at_home [("Alex_emails_march_04.csv", File no_id)].

Definition user : Path := mkPath true ["home"; "user"].

Definition dataset : Path := mkPath false ["Alex_emails_march_04.csv"].

(** [--save-pickle missing/out.pkl]: no directory [missing] anywhere. *)
Definition args_missing_dir : Namespace :=
  mkArgs None "latin-1" false 5 (Some "missing/out.pkl").


(** [E] with an acute accent in UTF-8, upper and lower case. *)
Definition E_acute : string :=
  String (ascii_of_nat 195) (String (ascii_of_nat 137) EmptyString).

Definition e_acute : string :=
  String (ascii_of_nat 195) (String (ascii_of_nat 169) EmptyString).

(** A name of 256 bytes, one more than an entry can have. *)
Definition long_name : string :=
  (fix rep (k : nat) : string :=
     match k with
     | 0 => EmptyString
     | S k' => String "a"%char (rep k')
     end) 256.

(** [--path] with the name of 256 bytes. *)
Definition args_long_path : Namespace :=
  mkArgs (Some long_name) "latin-1" false 5 None.


(** The table [load_csv] makes of [emails] without an index column. *)
Definition emails_table : DataFrame :=
  mkDF (RangeIndex 4) ["email_id"; "subject"]
       [["e1"; "hello"]; ["e2"; "offer"]; ["e3"; "re: hello"]; ["e4"; "bye"]].

End Demo.


(* ===================================================================== *)
(** ** Notions the properties are stated with *)
(* ===================================================================== *)

(** A file name with nothing for pathlib to interpret: one component,
    not [''] or ['.'], without a separator or a wildcard character. *)
Definition plain_name (n : string) : bool :=
  keep_part n && negb (Str.has_char slash n) && negb (is_wildcard_pattern n).




(** The kernel refuses to look [p] up: [exists] and [is_dir] raise. *)
Definition refused (w : World) (p : Path) : bool :=
  match os_stat w p with
  | inl e => negb (ignore_error e)
  | inr _ => false
  end.


(** The current directory is a directory of the tree. *)
Definition cwd_ok (w : World) : bool :=
  match get (fs w) (cwd w) with
  | Some (Dir _) => true
  | _ => false
  end.

(** The path [main] goes on with, stated on what the run is given: the
    explicit path when it is there, otherwise what the search for the
    dataset returns. *)
Definition resolved `{Library} (args : Namespace) (w : World)
  (file_path : Path) (w1 : World) : Prop :=
  (exists s, args_path args = Some s /\ s <> "" /\
             path_exists w (Path_ s) = true /\
             file_path = Path_ s /\ w1 = log (CallExists (Path_ s)) w)
  \/
  (Str.truthy (args_path args) = false /\
   find_file_by_name target_name (mkPath true (cwd w)) w
   = (Ok (Some file_path), w1)).


(** The same file, or a directory on both sides, or nothing on both. *)
Definition same_kind (a b : option node) : Prop :=
  match a, b with
  | None, None => True
  | Some (File x), Some (File y) => x = y
  | Some (Dir _), Some (Dir _) => True
  | _, _ => False
  end.


(** The namespace with [--no-index] set or cleared. *)
Definition with_no_index (b : bool) (args : Namespace) : Namespace :=
  mkArgs (args_path args) (args_encoding args) b
         (args_head args) (args_save_pickle args).

(** A computation that leaves the directory tree and the current
    directory as they are, and at most adds lines to standard output. *)
Definition keeps_fs {A} (m : M A) : Prop :=
  forall w, fs (snd (m w)) = fs w /\ cwd (snd (m w)) = cwd w /\
            exists l, stdout (snd (m w)) = stdout w ++ l.


(** A request that starts a recursive search. *)
Definition is_rglob (c : Call) : bool :=
  match c with
  | CallRglob _ _ => true
  | _ => false
  end.

(** The long spelling of a short option string; any other string is
    left as it is. *)
Definition long_option (s : string) : string :=
  if String.eqb s "-p" then "--path"
  else if String.eqb s "-e" then "--encoding"
  else if String.eqb s "-n" then "--head"
  else if String.eqb s "-s" then "--save-pickle"
  else s.

(** The namespace with another [--path] and [--save-pickle]. *)
Definition with_paths (path_ save : option string) (args : Namespace) : Namespace :=
  mkArgs path_ (args_encoding args) (args_no_index args) (args_head args) save.

(** Two worlds with the same tree and current directory; their output
    and request logs may differ. *)
Definition same_tree (w1 w2 : World) : Prop :=
  fs w1 = fs w2 /\ cwd w1 = cwd w2.

(** A computation whose result, new output and effect on the tree depend
    on the tree and the current directory only. *)
Definition stable {A} (m : M A) : Prop :=
  forall w1 w2, same_tree w1 w2 ->
    fst (m w1) = fst (m w2) /\
    same_tree (snd (m w1)) (snd (m w2)) /\
    exists l, stdout (snd (m w1)) = stdout w1 ++ l /\
              stdout (snd (m w2)) = stdout w2 ++ l.

(** The world after one more [print]. *)
Definition printed (s : string) (w : World) : World :=
  mkWorld (fs w) (cwd w) (stdout w ++ [s]) (calls w).

(* ===================================================================== *)
(** * Properties *)
(* ===================================================================== *)

(** ** Strings and paths *)

Lemma has_char_false_split (c : ascii) (s : string) :
  Str.has_char c s = false -> Str.split c s = [s].
Proof.
  induction s as [|a s IH]; simpl; intros Hc; [reflexivity|].
  apply orb_false_iff in Hc. destruct Hc as [Hca Hs].
  rewrite Ascii.eqb_sym, Hca, (IH Hs). reflexivity.
Qed.

Lemma has_char_false_startswith (c : ascii) (s : string) :
  Str.has_char c s = false -> Str.startswith (String c "") s = false.
Proof.
  destruct s as [|a s]; simpl; intros Hc; [reflexivity|].
  apply orb_false_iff in Hc. destruct Hc as [Hca _]. now rewrite Hca.
Qed.

Lemma has_char_false_endswith (c : ascii) (s : string) :
  Str.has_char c s = false -> Str.endswith (String c "") s = false.
Proof.
  induction s as [|a s IH]; simpl; intros Hc; [reflexivity|].
  apply orb_false_iff in Hc. destruct Hc as [Hca Hs].
  rewrite (IH Hs), Hca. simpl. destruct s; reflexivity.
Qed.

Lemma contains_has_char (c : ascii) (sub s : string) :
  Str.has_char c s = false -> Str.contains (String c sub) s = false.
Proof.
  induction s as [|a s IH]; simpl; intros Hc; [reflexivity|].
  apply orb_false_iff in Hc. destruct Hc as [Hca Hs].
  now rewrite Hca, (IH Hs).
Qed.


(** What pathlib makes of a plain name: a relative pattern of one
    precise part. *)
Lemma plain_name_parts (n : string) :
  plain_name n = true ->
  Str.startswith "/" n = false /\ Str.endswith "/" n = false /\
  parse_parts n = [n] /\ bad_part n = false /\
  is_wildcard_pattern n = false /\ String.eqb n "" = false /\
  String.eqb n "**" = false.
Proof.
  unfold plain_name. intros Hp.
  apply andb_true_iff in Hp. destruct Hp as [Hp Hw].
  apply andb_true_iff in Hp. destruct Hp as [Hk Hs].
  apply negb_true_iff in Hs, Hw.
  assert (Hstar : Str.has_char "*"%char n = false).
  { unfold is_wildcard_pattern in Hw.
    apply orb_false_iff in Hw. destruct Hw as [Hw _].
    apply orb_false_iff in Hw. tauto. }
  repeat split.
  - now apply has_char_false_startswith.
  - now apply has_char_false_endswith.
  - unfold parse_parts. rewrite (has_char_false_split _ _ Hs). simpl.
    now rewrite Hk.
  - unfold bad_part. now rewrite (contains_has_char _ "*" _ Hstar).
  - exact Hw.
  - unfold keep_part in Hk. apply andb_true_iff in Hk.
    destruct Hk as [Hk _]. now apply negb_true_iff in Hk.
  - destruct (String.eqb_spec n "**") as [->|]; [discriminate Hstar|reflexivity].
Qed.

(** ** Globbing *)



Section Globbing.

Context `{Library}.

Lemma select_from_log (c : Call) (w : World) (pats : list string) :
  forall p, select_from (log c w) pats p = select_from w pats p.
Proof.
  induction pats as [|pat rest IH]; intros p; [reflexivity|].
  simpl.
  destruct (String.eqb pat ""); [reflexivity|].
  destruct (String.eqb pat "**").
  - f_equal. apply flat_map_ext. intros q. apply IH.
  - destruct (is_wildcard_pattern pat).
    + change (locate (log c w) p) with (locate w p).
      destruct (locate w p) as [[bytes|es]|]; try reflexivity.
      apply flat_map_ext. intros e.
      destruct (_ && _); [apply IH|reflexivity].
    + change (os_stat (log c w) (child p pat)) with (os_stat w (child p pat)).
      destruct (os_stat w (child p pat)) as [e|n]; [reflexivity|].
      destruct (_ || _); [apply IH|reflexivity].
Qed.

Lemma glob_result_log (c : Call) (w : World) (root : Path) (pattern : string) :
  glob_result (log c w) root pattern = glob_result w root pattern.
Proof.
  unfold glob_result.
  destruct (Str.startswith "/" pattern); [reflexivity|].
  destruct (existsb bad_part _); [reflexivity|].
  change (os_stat (log c w) root) with (os_stat w root).
  destruct (os_stat w root) as [e|[bytes|es]]; try reflexivity.
  apply select_from_log.
Qed.

(** *** What [os.stat] answers *)


Lemma path_exists_stat (w : World) (p : Path) :
  path_exists w p = match os_stat w p with inr _ => true | inl _ => false end.
Proof. unfold path_exists, os_stat. now destruct (locate w p). Qed.

Lemma path_is_dir_stat (w : World) (p : Path) :
  path_is_dir w p = match os_stat w p with inr n => is_Dir n | inl _ => false end.
Proof. unfold path_is_dir, os_stat. now destruct (locate w p) as [[|]|]. Qed.

Lemma refused_exists (w : World) (p : Path) :
  path_exists w p = true -> refused w p = false.
Proof.
  unfold refused. rewrite path_exists_stat.
  now destruct (os_stat w p).
Qed.

(** [exists] answers with what the tree holds unless the kernel
    refuses the lookup. *)
Lemma exists_run (p : Path) (w : World) :
  exists_ p w =
  if refused w p
  then (Raise (os_error (strerror ENAMETOOLONG) p), log (CallExists p) w)
  else (Ok (path_exists w p), log (CallExists p) w).
Proof.
  unfold exists_, refused. rewrite path_exists_stat.
  destruct (os_stat w p) as [[| |]|n]; reflexivity.
Qed.

(** An existence test that answers no was not refused and found
    nothing. *)
Lemma exists_false (p : Path) (w : World) :
  fst (exists_ p w) = Ok false ->
  refused w p = false /\ path_exists w p = false.
Proof.
  rewrite exists_run. destruct (refused w p); [discriminate|].
  simpl. intros [= ->]. now split.
Qed.



(** *** The paths among the items *)














End Globbing.

(** ** The file resolver *)

Section Resolver.

Context `{Library}.





(** The resolver, stage by stage, with the requests it logs. *)
Lemma find_file_by_name_run (name_ : string) (root : Path) (w : World) :
  find_file_by_name name_ root w =
  let candidate := Path_ name_ in
  let w1 := log (CallExists candidate) w in
  let w2 := log (CallRglob root name_) w1 in
  let w3 := log (CallRglob root "*.csv") w2 in
  if refused w candidate
  then (Raise (os_error (strerror ENAMETOOLONG) candidate), w1)
  else if path_exists w candidate then (Ok (Some candidate), w1)
  else match glob_result w root name_ with
       | Yield p :: _ => (Ok (Some p), w2)
       | Throw e :: _ => (Raise e, w2)
       | [] => (first_containing (lower name_) (glob_result w root "*.csv"), w3)
       end.
Proof.
  unfold find_file_by_name, bind. rewrite exists_run. cbv zeta.
  destruct (refused w (Path_ name_)); [reflexivity|].
  destruct (path_exists w (Path_ name_)); [reflexivity|].
  unfold rglob, ret, lift. rewrite glob_result_log.
  destruct (glob_result w root name_) as [|[p|e] rest]; reflexivity.
Qed.

(** The resolver on the four kinds of directory tree: the dataset in the
    current directory, deeper in the tree, under a similar name only, and
    nowhere. *)
Example find_file_by_name_examples :
  fst (@find_file_by_name Demo.lib target_name Demo.user Demo.w_here)
  = Ok (Some (mkPath false ["Alex_emails_march_04.csv"])) /\
  fst (@find_file_by_name Demo.lib target_name Demo.user Demo.w_nested)
  = Ok (Some (mkPath true
                ["home"; "user"; "data"; "march"; "Alex_emails_march_04.csv"])) /\
  fst (@find_file_by_name Demo.lib target_name Demo.user Demo.w_similar)
  = Ok (Some (mkPath true
                ["home"; "user"; "archive"; "old_ALEX_Emails_March_04.csv"])) /\
  fst (@find_file_by_name Demo.lib target_name Demo.user Demo.w_none)
  = Ok None.
Proof. repeat split; vm_compute; reflexivity. Qed.

End Resolver.

(** ** Writing a file into the tree *)

Lemma same_kind_refl (a : option node) : same_kind a a.
Proof. destruct a as [[bytes|es]|]; simpl; auto. Qed.

Lemma lookup_set_entry (c' c : string) (x : node) (es : list (string * node)) :
  lookup c' (set_entry c x es) = if String.eqb c' c then Some x else lookup c' es.
Proof.
  induction es as [|[n y] es IH]; simpl.
  - destruct (String.eqb c' c); reflexivity.
  - destruct (String.eqb_spec c n) as [->|Hcn]; simpl.
    + destruct (String.eqb c' n); reflexivity.
    + rewrite IH. destruct (String.eqb_spec c' n) as [->|Hn]; [|reflexivity].
      destruct (String.eqb_spec n c) as [->|]; [contradiction|reflexivity].
Qed.

Lemma lookup_map_entry (c' c : string) (g : node -> node)
  (es : list (string * node)) :
  lookup c' (map_entry c g es) =
  if String.eqb c' c then option_map g (lookup c es) else lookup c' es.
Proof.
  induction es as [|[n y] es IH]; simpl.
  - destruct (String.eqb c' c); reflexivity.
  - destruct (String.eqb_spec c n) as [->|Hcn]; simpl.
    + destruct (String.eqb c' n); reflexivity.
    + rewrite IH. destruct (String.eqb_spec c' n) as [->|Hn]; [|reflexivity].
      destruct (String.eqb_spec n c) as [->|]; [contradiction|reflexivity].
Qed.



Section Writing.

Variables (final : string) (bytes : string).

Let put : list (string * node) -> list (string * node) :=
  set_entry final (File bytes).


(** Every other place of the tree is as it was: a file keeps its
    content, a directory stays one, nothing else appears. *)
Lemma get_update_other (dir : list string) :
  forall t es0 q,
    get t dir = Some (Dir es0) ->
    (forall es', lookup final es0 <> Some (Dir es')) ->
    q <> dir ++ [final] ->
    same_kind (get t q) (get (update put t dir) q).
Proof.
  induction dir as [|c dir IH]; intros t es0 q; simpl.
  - intros [= ->] Hnd Hq. simpl.
    destruct q as [|a q]; simpl; [exact I|].
    unfold put. rewrite lookup_set_entry.
    destruct (String.eqb_spec a final) as [->|Ha].
    + destruct q as [|a' q]; [contradiction|]. simpl.
      destruct (lookup final es0) as [[b|es']|] eqn:Hf; simpl; auto.
      exfalso. eapply Hnd. reflexivity.
    + apply same_kind_refl.
  - destruct t as [b|es]; [discriminate|].
    destruct (lookup c es) as [x|] eqn:Hc; [|discriminate].
    intros Hx Hnd Hq. simpl.
    destruct q as [|a q]; simpl; [exact I|].
    rewrite lookup_map_entry.
    destruct (String.eqb_spec a c) as [->|Ha].
    + rewrite Hc. simpl. eapply IH; eauto. congruence.
    + apply same_kind_refl.
Qed.


End Writing.


(** A successful write changes nothing but the file written. *)
Lemma write_file_frame (t t' : node) (ps : list string) (bytes : string) :
  write_file t ps bytes = Some t' ->
  exists dir, real t [] (removelast ps) = Some dir /\
    forall q, q <> dir ++ [last ps ""] -> same_kind (get t q) (get t' q).
Proof.
  unfold write_file. destruct ps as [|c0 ps0]; [discriminate|].
  set (ps := c0 :: ps0).
  destruct (String.eqb (last ps "") ".."); [discriminate|].
  destruct (real t [] (removelast ps)) as [dir|] eqn:Hreal; [|discriminate].
  destruct (get t dir) as [[b|es]|] eqn:Hdir; try discriminate.
  intros Hw. exists dir. split; [reflexivity|]. intros q Hq.
  assert (Hnd : forall es', lookup (last ps "") es <> Some (Dir es')).
  { intros es' He. rewrite He in Hw. discriminate. }
  assert (Ht' : t' = update (set_entry (last ps "") (File bytes)) t dir).
  { destruct (lookup (last ps "") es) as [[b|es']|]; try congruence.
    destruct (NAME_MAX <? _)%nat; congruence. }
  subst t'. eapply get_update_other; eauto.
Qed.

(** ** Paths in a tidy tree *)













(** ** Searches that the kernel does not interrupt *)

Section Quiet.

Context `{Library}.






Lemma pattern_parts_plain (n : string) :
  plain_name n = true -> pattern_parts n = [n].
Proof.
  intros Hn. destruct (plain_name_parts n Hn) as (_ & He & Hp & _).
  unfold pattern_parts. now rewrite He, Hp.
Qed.





End Quiet.

(** ** The phases of [main] *)

Create HintDb keeps discriminated.

Ltac keeps_here :=
  repeat split; try reflexivity; exists []; simpl; now rewrite app_nil_r.

Ltac keeps_quiet := intros ?w; keeps_here.

Lemma keeps_ret {A} (a : A) : keeps_fs (ret a).
Proof. keeps_quiet. Qed.

Lemma keeps_print (s : string) : keeps_fs (print s).
Proof. intros w. repeat split. now exists [s]. Qed.

Lemma keeps_resolve_cwd : keeps_fs resolve_cwd.
Proof.
  intros w. unfold resolve_cwd.
  destruct (get (fs w) (cwd w)) as [[b|es]|]; keeps_here.
Qed.

Lemma keeps_bind {A B} (m : M A) (k : A -> M B) :
  keeps_fs m -> (forall a, keeps_fs (k a)) -> keeps_fs (bind m k).
Proof.
  intros Hm Hk w. unfold bind. specialize (Hm w).
  destruct (m w) as [[a|e] w1]; simpl in *; [|exact Hm].
  destruct Hm as (Hf1 & Hc1 & l1 & Hl1).
  destruct (Hk a w1) as (Hf & Hc & l & Hl).
  repeat split; try congruence.
  exists (l1 ++ l). now rewrite Hl, Hl1, app_assoc.
Qed.

Lemma keeps_try_except {A} (m : M A) (h : Exception -> M A) :
  keeps_fs m -> (forall e, keeps_fs (h e)) -> keeps_fs (try_except m h).
Proof.
  intros Hm Hh w. unfold try_except. specialize (Hm w).
  destruct (m w) as [[a|e] w1]; simpl in *; [exact Hm|].
  destruct Hm as (Hf1 & Hc1 & l1 & Hl1).
  destruct (Hh e w1) as (Hf & Hc & l & Hl).
  repeat split; try congruence.
  exists (l1 ++ l). now rewrite Hl, Hl1, app_assoc.
Qed.

#[local] Hint Resolve keeps_ret keeps_print keeps_resolve_cwd : keeps.

Section Phases.

Context `{Library}.

Lemma keeps_exists (p : Path) : keeps_fs (exists_ p).
Proof.
  intros w. rewrite exists_run. destruct (refused w p); keeps_here.
Qed.

Lemma keeps_lift {A} (r : Res A) : keeps_fs (lift r).
Proof. keeps_quiet. Qed.

#[local] Hint Resolve keeps_exists keeps_lift : keeps.

Lemma keeps_rglob (root : Path) (pattern : string) : keeps_fs (rglob root pattern).
Proof. keeps_quiet. Qed.

Lemma keeps_read_csv (p : Path) (encoding : string) : keeps_fs (read_csv p encoding).
Proof.
  intros w. unfold read_csv.
  destruct (os_stat w p) as [e|[bytes|es]]; try keeps_here.
  destruct (parse_csv bytes encoding) as [e|[header body]]; keeps_here.
Qed.

Lemma keeps_find_file_by_name (name_ : string) (root : Path) :
  keeps_fs (find_file_by_name name_ root).
Proof.
  unfold find_file_by_name. apply keeps_bind; [auto with keeps|].
  intros [|]; [auto with keeps|].
  apply keeps_bind; [apply keeps_rglob|].
  intros [|[p|e] rest]; [|auto with keeps|auto with keeps].
  apply keeps_bind; [apply keeps_rglob|auto with keeps].
Qed.

Lemma keeps_load_csv (p : Path) (encoding : string) (index_col : option string) :
  keeps_fs (load_csv p encoding index_col).
Proof.
  unfold load_csv. apply keeps_bind; [apply keeps_read_csv|].
  intros df. destruct index_col as [c|]; [|auto with keeps].
  destruct (_ && _); [|auto with keeps]. keeps_quiet.
Qed.

Lemma keeps_resolve_path (args : Namespace) : keeps_fs (resolve_path args).
Proof.
  unfold resolve_path. apply keeps_bind; [auto with keeps|]. intros root.
  destruct (Str.truthy (args_path args)).
  - apply keeps_bind; [auto with keeps|].
    intros [|]; simpl; [auto with keeps|].
    apply keeps_bind; auto with keeps.
  - apply keeps_bind; [apply keeps_find_file_by_name|].
    intros [p|]; [auto with keeps|].
    apply keeps_bind; auto with keeps.
Qed.

Lemma keeps_load (args : Namespace) (p : Path) : keeps_fs (load args p).
Proof.
  unfold load. apply keeps_bind; [auto with keeps|]. intros _.
  apply keeps_try_except.
  - apply keeps_bind; [apply keeps_load_csv|auto with keeps].
  - intros e. apply keeps_bind; auto with keeps.
Qed.

Lemma keeps_summary (df : DataFrame) : keeps_fs (summary df).
Proof. unfold summary. repeat (apply keeps_bind; [auto with keeps|intros _]). auto with keeps. Qed.

Lemma keeps_preview (args : Namespace) (df : DataFrame) : keeps_fs (preview args df).
Proof.
  unfold preview. destruct (negb _); [|auto with keeps].
  apply keeps_bind; auto with keeps.
Qed.

Lemma resolve_cwd_run (w : World) :
  resolve_cwd w =
  if cwd_ok w then (Ok (mkPath true (cwd w)), w)
  else (Raise (mkExc "OSError" (strerror ENOENT)), w).
Proof.
  unfold resolve_cwd, cwd_ok.
  destruct (get (fs w) (cwd w)) as [[bytes|es]|]; reflexivity.
Qed.

(** The current directory is resolved first; the explicit path is
    tested once; the search runs only without it. *)
Lemma resolve_path_run (args : Namespace) (w : World) :
  resolve_path args w =
  if cwd_ok w then
    if Str.truthy (args_path args) then
      let file_path :=
        Path_ (match args_path args with Some s => s | None => "" end) in
      let w1 := log (CallExists file_path) w in
      if refused w file_path
      then (Raise (os_error (strerror ENAMETOOLONG) file_path), w1)
      else if path_exists w file_path then (Ok (inr file_path), w1)
      else (Ok (inl 2%Z),
            printed ("File not found at provided path: " ++ str file_path) w1)
    else
      match find_file_by_name target_name (mkPath true (cwd w)) w with
      | (Ok (Some p), w1) => (Ok (inr p), w1)
      | (Ok None, w1) =>
          (Ok (inl 3%Z),
           printed ("Could not find '" ++ target_name ++ "' under "
                    ++ str (mkPath true (cwd w))
                    ++ ". Use --path to specify location.") w1)
      | (Raise e, w1) => (Raise e, w1)
      end
  else (Raise (mkExc "OSError" (strerror ENOENT)), w).
Proof.
  unfold resolve_path, bind. rewrite resolve_cwd_run. cbv zeta.
  destruct (cwd_ok w); [|reflexivity].
  destruct (Str.truthy (args_path args)).
  - rewrite exists_run. destruct (refused w _); [reflexivity|].
    destruct (path_exists w _); reflexivity.
  - destruct (find_file_by_name _ _ w) as [[[p|]|e] w1]; reflexivity.
Qed.






Lemma load_csv_run (p : Path) (encoding : string) (index_col : option string)
  (w : World) :
  load_csv p encoding index_col w =
  let w' := log (CallOpenRead p) w in
  match locate w p with
  | None => (Raise (os_error (strerror (stat_errno w p)) p), w')
  | Some (Dir _) => (Raise (os_error "Is a directory" p), w')
  | Some (File bytes) =>
      match parse_csv bytes encoding with
      | inl e => (Raise e, w')
      | inr (header, body) =>
          let df := mkDF (RangeIndex (length body)) header body in
          match index_col with
          | Some c =>
              if negb (String.eqb c "") && Str.mem c header
              then (set_index df c, w') else (Ok df, w')
          | None => (Ok df, w')
          end
      end
  end.
Proof.
  unfold load_csv, bind, read_csv, os_stat. cbv zeta.
  destruct (locate w p) as [[bytes|es]|]; try reflexivity.
  destruct (parse_csv bytes encoding) as [e|[header body]]; [reflexivity|].
  destruct index_col as [c|]; [|reflexivity]. simpl.
  destruct (_ && _); reflexivity.
Qed.

Lemma load_run (args : Namespace) (file_path : Path) (w : World) :
  load args file_path w =
  match load_csv file_path (args_encoding args)
          (if args_no_index args then None else Some "email_id")
          (printed ("Loading CSV: " ++ str file_path
                    ++ " (encoding=" ++ args_encoding args ++ ")") w) with
  | (Ok df, w2) => (Ok (inr df), w2)
  | (Raise exc, w2) =>
      (Ok (inl 4%Z), printed ("Error loading CSV: " ++ exc_msg exc) w2)
  end.
Proof.
  unfold load, bind, try_except, print, printed.
  destruct (load_csv _ _ _ _) as [[df|e] w2]; reflexivity.
Qed.

Lemma summary_run (df : DataFrame) (w : World) :
  summary df w =
  (Ok tt,
   printed (Str.nl ++ "Columns: " ++ repr_list (columns df))
     (printed ("Shape: " ++ repr_shape (shape df))
        (printed (Str.nl ++ "DataFrame loaded successfully.") w))).
Proof. reflexivity. Qed.

Lemma preview_run (args : Namespace) (df : DataFrame) (w : World) :
  preview args df w =
  if (args_head args =? 0)%Z then (Ok tt, w)
  else (Ok tt,
        printed (to_string (head df (args_head args)))
          (printed (Str.nl ++ "Showing top rows:") w)).
Proof.
  unfold preview. destruct (args_head args =? 0)%Z; reflexivity.
Qed.

Lemma snapshot_run (args : Namespace) (df : DataFrame) (w : World) :
  snapshot args df w =
  if Str.truthy (args_save_pickle args) then
    let out := Path_ (match args_save_pickle args with Some s => s | None => "" end) in
    let w1 := log (CallOpenWrite out) w in
    match write_file (fs w) (abs_parts w out) (pickle_bytes df (str out)) with
    | Some t =>
        (Ok tt,
         printed ("Wrote DataFrame pickle to: " ++ str out)
           (mkWorld t (cwd w1) (stdout w1) (calls w1)))
    | None => (Raise (os_error "Cannot open for writing" out), w1)
    end
  else (Ok tt, w).
Proof.
  unfold snapshot, bind, to_pickle. cbv zeta.
  destruct (Str.truthy (args_save_pickle args)); [|reflexivity].
  destruct (write_file _ _ _); reflexivity.
Qed.

Lemma report_run (args : Namespace) (df : DataFrame) (w : World) :
  report args df w =
  match snapshot args df (snd (preview args df (snd (summary df w)))) with
  | (Ok _, w3) => (Ok 0%Z, w3)
  | (Raise e, w3) => (Raise e, w3)
  end.
Proof.
  unfold report, bind. rewrite summary_run. cbn [snd].
  destruct (preview args df _) as [[[]|e] wp] eqn:Hp; cbn [snd].
  - destruct (snapshot args df wp) as [[[]|e] w3]; reflexivity.
  - rewrite preview_run in Hp. destruct (_ =? _)%Z; discriminate.
Qed.

Lemma main_args_run (args : Namespace) (w : World) :
  main_args args w =
  match resolve_path args w with
  | (Ok (inl code), w1) => (Ok code, w1)
  | (Ok (inr file_path), w1) =>
      match load args file_path w1 with
      | (Ok (inl code), w2) => (Ok code, w2)
      | (Ok (inr df), w2) => report args df w2
      | (Raise e, w2) => (Raise e, w2)
      end
  | (Raise e, w1) => (Raise e, w1)
  end.
Proof.
  unfold main_args, bind.
  destruct (resolve_path args w) as [[[code|file_path]|e] w1]; try reflexivity.
  destruct (load args file_path w1) as [[[code|df]|e] w2]; reflexivity.
Qed.

End Phases.

(** ** Exit codes *)

Section ExitCodes.

Context `{Library}.







(** Runs of [main] that end with 0, 2, 3 and 4. *)
Example main_exit_code_examples :
  fst (@main_args Demo.lib defaults Demo.w_nested) = Ok 0%Z /\
  @main_args Demo.lib (mkArgs (Some "nothere.csv") "latin-1" false 5 None) Demo.w_nested
  = (Ok 2%Z,
     mkWorld (fs Demo.w_nested) (cwd Demo.w_nested)
       ["File not found at provided path: nothere.csv"]
       [CallExists (mkPath false ["nothere.csv"])]) /\
  fst (@main_args Demo.lib defaults Demo.w_none) = Ok 3%Z /\
  fst (@main_args Demo.lib (mkArgs None "klingon" false 5 None) Demo.w_here)
  = Ok 4%Z /\
  fst (@main_args Demo.lib defaults Demo.w_dir_nested) = Ok 4%Z.
Proof. repeat split; vm_compute; reflexivity. Qed.

End ExitCodes.

(** ** The index column *)

Lemma position_In (c : string) (cols : list string) :
  In c cols ->
  exists k, position c cols = Some k /\ nth_error cols k = Some c.
Proof.
  induction cols as [|x cols IH]; simpl; [intros []|].
  destruct (String.eqb_spec c x) as [->|Hne].
  - intros _. now exists 0.
  - intros [Hx|Hin]; [congruence|].
    destruct (IH Hin) as [k [-> Hk]]. now exists (S k).
Qed.

Lemma mem_In (c : string) (cols : list string) :
  Str.mem c cols = true <-> In c cols.
Proof.
  unfold Str.mem. rewrite existsb_exists. split.
  - intros [x [Hin Hx]]. apply String.eqb_eq in Hx. now subst.
  - intros Hin. exists c. split; [exact Hin|apply String.eqb_refl].
Qed.

Lemma mem_false (c : string) (cols : list string) :
  ~ In c cols -> Str.mem c cols = false.
Proof.
  intros Hn. destruct (Str.mem c cols) eqn:Hm; [|reflexivity].
  apply mem_In in Hm. contradiction.
Qed.

Lemma locate_same (w w' : World) (p : Path) :
  fs w' = fs w -> cwd w' = cwd w -> locate w' p = locate w p.
Proof. unfold locate, abs_parts. now intros -> ->. Qed.

Section IndexColumn.

Context `{Library}.

(** C3. For a file that parses and has a column [email_id]: without
    [--no-index] the loaded table is indexed by the values of that
    column, which leaves the columns; with [--no-index] the table keeps
    the positional index [RangeIndex] over its rows and [email_id] stays
    a column. *)
Theorem load_email_id_index (args : Namespace) (file_path : Path) (w : World)
  (bytes : string) (header : list string) (body : list (list cell)) :
  locate w file_path = Some (File bytes) ->
  parse_csv bytes (args_encoding args) = inr (header, body) ->
  In "email_id" header ->
  (args_no_index args = false ->
   exists k df w',
     nth_error header k = Some "email_id" /\
     load args file_path w = (Ok (inr df), w') /\
     index df = ColumnIndex "email_id" (map (fun r => nth k r "") body) /\
     columns df = drop_nth k header)
  /\
  (args_no_index args = true ->
   exists w',
     load args file_path w
     = (Ok (inr (mkDF (RangeIndex (length body)) header body)), w')).
Proof.
  intros Hloc Hparse Hin. split; intros Hflag.
  - destruct (position_In _ _ Hin) as [k [Hpos Hk]].
    rewrite load_run, load_csv_run, Hflag. cbv zeta.
    change (locate (printed _ w) file_path) with (locate w file_path).
    rewrite Hloc, Hparse.
    apply mem_In in Hin. rewrite Hin. simpl.
    unfold set_index. simpl. rewrite Hpos.
    eexists k, _, _. repeat split. exact Hk.
  - rewrite load_run, load_csv_run, Hflag. cbv zeta.
    change (locate (printed _ w) file_path) with (locate w file_path).
    rewrite Hloc, Hparse. eexists. reflexivity.
Qed.

(** C5. When the index column asked for is not among the columns,
    [load_csv] returns the parsed table as it is, with the positional
    index, exactly as if no index column had been given, and raises
    nothing; a run of [main] on such a file ends as the same run with
    [--no-index] does, exit code included. *)
Theorem load_csv_missing_index_column (file_path : Path) (encoding c : string)
  (w : World) (bytes : string) (header : list string) (body : list (list cell)) :
  locate w file_path = Some (File bytes) ->
  parse_csv bytes encoding = inr (header, body) ->
  ~ In c header ->
  load_csv file_path encoding (Some c) w
  = (Ok (mkDF (RangeIndex (length body)) header body),
     log (CallOpenRead file_path) w)
  /\
  load_csv file_path encoding (Some c) w = load_csv file_path encoding None w
  /\
  (forall args w1,
     c = "email_id" -> encoding = args_encoding args ->
     resolve_path args w = (Ok (inr file_path), w1) ->
     main_args args w = main_args (with_no_index true args) w).
Proof.
  intros Hloc Hparse Hin. apply mem_false in Hin.
  assert (Hsame : forall w',
            fs w' = fs w -> cwd w' = cwd w ->
            load_csv file_path encoding (Some c) w'
            = load_csv file_path encoding None w').
  { intros w' Hf Hc. rewrite !load_csv_run. cbv zeta.
    rewrite (locate_same w w' file_path Hf Hc), Hloc, Hparse, Hin.
    now rewrite andb_false_r. }
  repeat apply conj.
  - rewrite load_csv_run. cbv zeta. rewrite Hloc, Hparse, Hin.
    now rewrite andb_false_r.
  - now apply Hsame.
  - intros args w1 -> -> Hres.
    rewrite !main_args_run.
    change (resolve_path (with_no_index true args) w)
      with (resolve_path args w).
    rewrite Hres, !load_run.
    destruct (keeps_resolve_path args w) as (Hf1 & Hc1 & _).
    rewrite Hres in Hf1, Hc1. simpl in Hf1, Hc1.
    destruct (args_no_index args); [reflexivity|].
    simpl (args_no_index (with_no_index true args)). cbv iota.
    change (args_encoding (with_no_index true args)) with (args_encoding args).
    rewrite Hsame by (simpl; congruence).
    destruct (load_csv _ _ None _) as [[df|e] w2]; reflexivity.
Qed.

End IndexColumn.

(** ** The preview *)




Section Preview.

Context `{Library}.



End Preview.


(** The dataset with an [email_id] column, loaded with the defaults. *)
Lemma load_email_id_index_witness :
  locate Demo.w_here Demo.dataset = Some (File Demo.emails) /\
  exists k df w',
    nth_error ["email_id"; "subject"] k = Some "email_id" /\
    @load Demo.lib defaults Demo.dataset Demo.w_here = (Ok (inr df), w') /\
    index df
    = ColumnIndex "email_id"
        (map (fun r => nth k r "") (rows Demo.emails_table)) /\
    columns df = drop_nth k ["email_id"; "subject"].
Proof.
  split; [reflexivity|].
  destruct (@load_email_id_index Demo.lib defaults Demo.dataset Demo.w_here
              Demo.emails ["email_id"; "subject"] (rows Demo.emails_table))
    as [Hindexed _].
  - reflexivity.
  - reflexivity.
  - now left.
  - apply Hindexed. reflexivity.
Defined.

(** The dataset without an [email_id] column, loaded with the defaults. *)
Lemma load_csv_missing_index_column_witness :
  locate Demo.w_no_id Demo.dataset = Some (File Demo.no_id) /\
  @load_csv Demo.lib Demo.dataset "latin-1" (Some "email_id") Demo.w_no_id
  = (Ok (mkDF (RangeIndex 2) ["sender"; "subject"]
           [["ann"; "hello"]; ["bob"; "offer"]]),
     log (CallOpenRead Demo.dataset) Demo.w_no_id) /\
  @main_args Demo.lib defaults Demo.w_no_id
  = @main_args Demo.lib (with_no_index true defaults) Demo.w_no_id.
Proof.
  split; [reflexivity|].
  destruct (@load_csv_missing_index_column Demo.lib Demo.dataset "latin-1"
              "email_id" Demo.w_no_id Demo.no_id ["sender"; "subject"]
              [["ann"; "hello"]; ["bob"; "offer"]])
    as (Hload & _ & Hmain).
  - reflexivity.
  - reflexivity.
  - simpl. intros [Hs|[Hs|[]]]; discriminate.
  - split; [exact Hload|].
    apply (Hmain defaults (log (CallExists Demo.dataset) Demo.w_no_id));
      reflexivity.
Defined.

(** ** The snapshot *)



Section Snapshot.

Context `{Library}.

(** What the snapshot block does to the world. *)
Lemma snapshot_world (args : Namespace) (df : DataFrame) (w : World) :
  let out := Path_ (match args_save_pickle args with Some s => s | None => "" end) in
  cwd (snd (snapshot args df w)) = cwd w /\
  (exists l, stdout (snd (snapshot args df w)) = stdout w ++ l) /\
  (fs (snd (snapshot args df w)) = fs w \/
   (Str.truthy (args_save_pickle args) = true /\
    write_file (fs w) (abs_parts w out) (pickle_bytes df (str out))
    = Some (fs (snd (snapshot args df w))))).
Proof.
  cbv zeta. rewrite snapshot_run. cbv zeta.
  destruct (Str.truthy (args_save_pickle args)).
  - destruct (write_file _ _ _) as [t|] eqn:Hw; simpl.
    + repeat split; [eexists; reflexivity|right; now split].
    + repeat split; [exists []; now rewrite app_nil_r|now left].
  - simpl. repeat split; [exists []; now rewrite app_nil_r|now left].
Qed.

(** The world when the snapshot block starts has the tree and the
    current directory of the world [report] started in. *)
Lemma before_snapshot (args : Namespace) (df : DataFrame) (w : World) :
  fs (snd (preview args df (snd (summary df w)))) = fs w /\
  cwd (snd (preview args df (snd (summary df w)))) = cwd w /\
  exists l, stdout (snd (preview args df (snd (summary df w)))) = stdout w ++ l.
Proof.
  destruct (keeps_summary df w) as (Hf1 & Hc1 & l1 & Hl1).
  destruct (keeps_preview args df (snd (summary df w))) as (Hf2 & Hc2 & l2 & Hl2).
  repeat split; try congruence.
  exists (l1 ++ l2). now rewrite Hl2, Hl1, app_assoc.
Qed.

(** What a whole run does to the world: the current directory stays,
    standard output grows, and the tree is the old one or the old one
    after the one write of the snapshot. *)
Lemma main_args_world (args : Namespace) (w : World) :
  let out := Path_ (match args_save_pickle args with Some s => s | None => "" end) in
  cwd (snd (main_args args w)) = cwd w /\
  (exists l, stdout (snd (main_args args w)) = stdout w ++ l) /\
  (fs (snd (main_args args w)) = fs w \/
   (Str.truthy (args_save_pickle args) = true /\
    exists df,
      write_file (fs w) (abs_parts w out) (pickle_bytes df (str out))
      = Some (fs (snd (main_args args w))))).
Proof.
  cbv zeta. rewrite main_args_run.
  destruct (keeps_resolve_path args w) as (Hf1 & Hc1 & l1 & Hl1).
  destruct (resolve_path args w) as [[[code|file_path]|e] w1]; simpl in *;
    try (repeat split; [exact Hc1|eauto|now left]).
  destruct (keeps_load args file_path w1) as (Hf2 & Hc2 & l2 & Hl2).
  destruct (load args file_path w1) as [[[code|df]|e] w2]; simpl in *;
    try (repeat split;
         [congruence|exists (l1 ++ l2); now rewrite Hl2, Hl1, app_assoc
         |left; congruence]).
  rewrite report_run.
  destruct (before_snapshot args df w2) as (Hf3 & Hc3 & l3 & Hl3).
  destruct (snapshot_world args df (snd (preview args df (snd (summary df w2)))))
    as (Hc4 & [l4 Hl4] & Hfs).
  cbv zeta in Hfs.
  assert (Hparts : forall p, abs_parts (snd (preview args df (snd (summary df w2)))) p
                             = abs_parts w p).
  { intros p. unfold abs_parts. now rewrite Hc3, Hc2, Hc1. }
  rewrite Hparts, Hf3, Hf2, Hf1 in Hfs.
  destruct (snapshot args df _) as [[[]|e] w3]; simpl in *.
  - repeat split; [congruence| |].
    + exists (l1 ++ l2 ++ l3 ++ l4).
      rewrite Hl4, Hl3, Hl2, Hl1, <- !app_assoc. reflexivity.
    + destruct Hfs as [Hfs|[Ht Hfs]]; [now left|right; eauto].
  - repeat split; [congruence| |].
    + exists (l1 ++ l2 ++ l3 ++ l4).
      rewrite Hl4, Hl3, Hl2, Hl1, <- !app_assoc. reflexivity.
    + destruct Hfs as [Hfs|[Ht Hfs]]; [now left|right; eauto].
Qed.

End Snapshot.

Section SnapshotClaims.

Context `{Library}.


(** C8. A run changes the world in three ways only: it logs its
    requests, it adds lines to standard output, and, with
    [--save-pickle], it makes the one write of the snapshot.  The
    current directory stays; without [--save-pickle] the tree after the
    run is the tree before it, however the run ends; with it the tree
    is unchanged or the result of writing the snapshot, and then every
    place other than the file written holds what it held (a file its
    content, a directory a directory, nothing nothing). *)
Theorem main_filesystem_frame (args : Namespace) (w : World) :
  let out := Path_ (match args_save_pickle args with Some s => s | None => "" end) in
  let w' := snd (main_args args w) in
  cwd w' = cwd w /\
  (exists l, stdout w' = stdout w ++ l) /\
  (Str.truthy (args_save_pickle args) = false -> fs w' = fs w) /\
  (fs w' = fs w \/
   exists df dir,
     write_file (fs w) (abs_parts w out) (pickle_bytes df (str out)) = Some (fs w') /\
     real (fs w) [] (removelast (abs_parts w out)) = Some dir /\
     forall q, q <> dir ++ [last (abs_parts w out) ""] ->
               same_kind (get (fs w) q) (get (fs w') q)).
Proof.
  cbv zeta. destruct (main_args_world args w) as (Hc & Hl & Hfs).
  cbv zeta in Hfs. repeat split; [exact Hc|exact Hl| |].
  - intros Hoff. destruct Hfs as [Hfs|[Hon _]]; [exact Hfs|congruence].
  - destruct Hfs as [Hfs|[_ [df Hw]]]; [now left|right].
    destruct (write_file_frame _ _ _ _ Hw) as [dir [Hdir Hframe]].
    exists df, dir. now repeat split.
Qed.

End SnapshotClaims.



(** C4, at the input where the code departs from it: with a snapshot
    path in a directory that does not exist, the exception of
    [to_pickle] leaves [main] uncaught; the process ends with status 1
    and the traceback of that exception, after the report and without a
    diagnostic line, where a failing [load_csv] two blocks earlier is
    caught and reported with code 4. *)
Example snapshot_error_escapes_main :
  @script Demo.lib Demo.args_missing_dir Demo.w_nested
  = (mkExit 1 (Some (mkExc "OSError" "Cannot open for writing: 'missing/out.pkl'")),
     snd (@main_args Demo.lib Demo.args_missing_dir Demo.w_nested)) /\
  stdout (snd (@main_args Demo.lib Demo.args_missing_dir Demo.w_nested))
  = ["Loading CSV: /home/user/data/march/Alex_emails_march_04.csv (encoding=latin-1)";
     (Str.nl ++ "DataFrame loaded successfully.")%string;
     "Shape: (4, 1)";
     (Str.nl ++ "Columns: ['subject']")%string;
     (Str.nl ++ "Showing top rows:")%string;
     @to_string Demo.lib
       (mkDF (ColumnIndex "email_id" ["e1"; "e2"; "e3"; "e4"])
             ["subject"] [["hello"]; ["offer"]; ["re: hello"]; ["bye"]])] /\
  @script Demo.lib (mkArgs None "klingon" false 5 None) Demo.w_nested
  = (mkExit 4 None,
     snd (@main_args Demo.lib (mkArgs None "klingon" false 5 None) Demo.w_nested)).
Proof. repeat split; vm_compute; reflexivity. Qed.

(** ** What the script does not check *)

Lemma path_is_dir_exists (w : World) (p : Path) :
  path_is_dir w p = true -> path_exists w p = true.
Proof.
  unfold path_is_dir, path_exists.
  destruct (locate w p) as [[bytes|es]|]; congruence.
Qed.

Lemma path_is_dir_not_file (w : World) (p : Path) :
  path_is_dir w p = true -> path_is_file w p = false.
Proof.
  unfold path_is_dir, path_is_file.
  destruct (locate w p) as [[bytes|es]|]; congruence.
Qed.

Section Unchecked.

Context `{Library}.

(** Whenever the filesystem refuses the write of the snapshot, the
    exception leaves [main] and the interpreter shows its traceback. *)
Lemma snapshot_failure_escapes (args : Namespace) (w : World)
  (file_path : Path) (w1 : World) (df : DataFrame) (w2 : World) :
  Str.truthy (args_save_pickle args) = true ->
  resolve_path args w = (Ok (inr file_path), w1) ->
  load args file_path w1 = (Ok (inr df), w2) ->
  write_file (fs w)
    (abs_parts w (Path_ (match args_save_pickle args with Some s => s | None => "" end)))
    (pickle_bytes df
       (str (Path_ (match args_save_pickle args with Some s => s | None => "" end))))
  = None ->
  exists e, fst (main_args args w) = Raise e /\
            fst (script args w) = mkExit 1 (Some e).
Proof.
  intros Hon Hres Hload Hw. unfold script.
  rewrite main_args_run, Hres, Hload, report_run, snapshot_run. cbv zeta.
  rewrite Hon.
  destruct (keeps_resolve_path args w) as (Hf1 & Hc1 & _).
  rewrite Hres in Hf1, Hc1. simpl in Hf1, Hc1.
  destruct (keeps_load args file_path w1) as (Hf2 & Hc2 & _).
  rewrite Hload in Hf2, Hc2. simpl in Hf2, Hc2.
  destruct (before_snapshot args df w2) as (Hf3 & Hc3 & _).
  set (wp := snd (preview args df (snd (summary df w2)))) in *.
  assert (Hparts : forall p, abs_parts wp p = abs_parts w p).
  { intros p. unfold abs_parts. now rewrite Hc3, Hc2, Hc1. }
  rewrite Hparts, Hf3, Hf2, Hf1, Hw. simpl. eauto.
Qed.

(** C10. The resolver tests existence only, never the kind of what it
    found: a name that is a directory relative to the current directory,
    and so no regular file, is returned by the first stage, and a
    directory that the recursive search for the name yields first is
    returned by the second; in both cases no later stage is started. *)
Theorem find_file_by_name_returns_directories (name_ : string) (root : Path)
  (w : World) :
  (path_is_dir w (Path_ name_) = true ->
   path_is_file w (Path_ name_) = false /\
   find_file_by_name name_ root w
   = (Ok (Some (Path_ name_)), log (CallExists (Path_ name_)) w))
  /\
  (forall p rest,
     fst (exists_ (Path_ name_) w) = Ok false ->
     glob_result w root name_ = Yield p :: rest ->
     path_is_dir w p = true ->
     path_is_file w p = false /\
     find_file_by_name name_ root w
     = (Ok (Some p),
        log (CallRglob root name_) (log (CallExists (Path_ name_)) w))).
Proof.
  rewrite find_file_by_name_run. cbv zeta. split.
  - intros Hd.
    rewrite (refused_exists _ _ (path_is_dir_exists _ _ Hd)).
    rewrite (path_is_dir_exists _ _ Hd).
    split; [now apply path_is_dir_not_file|reflexivity].
  - intros p rest Hex -> Hd.
    destruct (exists_false _ _ Hex) as [-> ->].
    split; [now apply path_is_dir_not_file|reflexivity].
Qed.

End Unchecked.

(** Two trees in which the resolver returns a directory: one called like
    the dataset in the current directory, one deeper in the tree. *)
Lemma find_file_by_name_returns_directories_witness :
  (path_is_dir Demo.w_dir_here Demo.dataset = true /\
   path_is_file Demo.w_dir_here Demo.dataset = false /\
   @find_file_by_name Demo.lib target_name Demo.user Demo.w_dir_here
   = (Ok (Some Demo.dataset), log (CallExists Demo.dataset) Demo.w_dir_here))
  /\
  (path_is_dir Demo.w_dir_nested
     (mkPath true ["home"; "user"; "data"; "Alex_emails_march_04.csv"]) = true /\
   path_is_file Demo.w_dir_nested
     (mkPath true ["home"; "user"; "data"; "Alex_emails_march_04.csv"]) = false /\
   @find_file_by_name Demo.lib target_name Demo.user Demo.w_dir_nested
   = (Ok (Some (mkPath true ["home"; "user"; "data"; "Alex_emails_march_04.csv"])),
      log (CallRglob Demo.user target_name)
        (log (CallExists Demo.dataset) Demo.w_dir_nested))).
Proof.
  split; (split; [reflexivity|]).
  - apply (@find_file_by_name_returns_directories Demo.lib target_name
             Demo.user Demo.w_dir_here). reflexivity.
  - apply (proj2 (@find_file_by_name_returns_directories Demo.lib target_name
                    Demo.user Demo.w_dir_nested)) with (rest := []);
      reflexivity.
Defined.

(** ** The properties on the example trees *)



(** A run without [--save-pickle] that fails, and the tree after it. *)
Lemma main_filesystem_frame_witness :
  fst (@main_args Demo.lib (mkArgs None "klingon" false 5 None) Demo.w_here)
  = Ok 4%Z /\
  fs (snd (@main_args Demo.lib (mkArgs None "klingon" false 5 None) Demo.w_here))
  = fs Demo.w_here.
Proof.
  split; [reflexivity|].
  apply (@main_filesystem_frame Demo.lib (mkArgs None "klingon" false 5 None)
           Demo.w_here).
  reflexivity.
Defined.

(* ===================================================================== *)
(** * Further properties of the script *)
(* ===================================================================== *)

(** ** The resolver: what it returns exists, and what exists is found *)




Section ResolverSound.

Context `{Library}.











End ResolverSound.



(** ** Whole runs *)

Lemma calls_printed (s : string) (w : World) : calls (printed s w) = calls w.
Proof. reflexivity. Qed.

Section Runs.

Context `{Library}.

Lemma calls_load (args : Namespace) (file_path : Path) (w : World) :
  calls (snd (load args file_path w)) = calls w ++ [CallOpenRead file_path].
Proof.
  rewrite load_run, load_csv_run. cbv zeta.
  destruct (locate _ file_path) as [[bytes|es]|]; try reflexivity.
  destruct (parse_csv bytes _) as [e|[header body]]; [reflexivity|].
  destruct (args_no_index args); [reflexivity|].
  destruct (_ && _); [|reflexivity].
  destruct (set_index _ _); reflexivity.
Qed.

Lemma calls_report (args : Namespace) (df : DataFrame) (w : World) :
  calls (snd (report args df w)) =
  calls w ++
  (if Str.truthy (args_save_pickle args)
   then [CallOpenWrite
           (Path_ (match args_save_pickle args with Some s => s | None => "" end))]
   else []).
Proof.
  rewrite report_run, snapshot_run, summary_run, preview_run. cbv zeta.
  destruct (Str.truthy (args_save_pickle args)).
  - destruct (args_head args =? 0)%Z; simpl;
      destruct (write_file _ _ _); reflexivity.
  - destruct (args_head args =? 0)%Z; simpl; now rewrite app_nil_r.
Qed.


(** X4. With an explicit path the run makes no search request: after the
    existence test of that path it reads at most that path and writes at
    most the snapshot; when the current directory is gone it makes no
    request at all. *)
Theorem main_explicit_path_requests (args : Namespace) (w : World) (s : string) :
  args_path args = Some s -> s <> "" ->
  let file_path := Path_ s in
  let out := Path_ (match args_save_pickle args with Some o => o | None => "" end) in
  if cwd_ok w then
    exists l,
      calls (snd (main_args args w)) = calls w ++ CallExists file_path :: l /\
      (l = [] \/ l = [CallOpenRead file_path] \/
       l = [CallOpenRead file_path; CallOpenWrite out]) /\
      existsb is_rglob (CallExists file_path :: l) = false
  else calls (snd (main_args args w)) = calls w.
Proof.
  intros Hs Hne. cbv zeta. apply String.eqb_neq in Hne.
  rewrite main_args_run, resolve_path_run.
  destruct (cwd_ok w); [|reflexivity]. cbv zeta.
  rewrite Hs. simpl Str.truthy. rewrite Hne. simpl negb. cbv iota.
  destruct (refused w (Path_ s));
    [exists []; simpl; repeat split; tauto|].
  destruct (path_exists w (Path_ s)).
  - pose proof (calls_load args (Path_ s) (log (CallExists (Path_ s)) w)) as Hl.
    destruct (load args (Path_ s) _) as [[[code|df]|e] w2]; simpl in Hl.
    + exists [CallOpenRead (Path_ s)]. simpl.
      rewrite Hl, <- app_assoc. repeat split. tauto.
    + pose proof (calls_report args df w2) as Hr. rewrite Hl in Hr.
      destruct (Str.truthy (args_save_pickle args)).
      * eexists [CallOpenRead (Path_ s); CallOpenWrite _].
        rewrite Hr, <- !app_assoc. repeat split. tauto.
      * exists [CallOpenRead (Path_ s)].
        rewrite Hr, <- !app_assoc. repeat split. tauto.
    + exists [CallOpenRead (Path_ s)]. simpl.
      rewrite Hl, <- app_assoc. repeat split. tauto.
  - exists []. simpl. repeat split. tauto.
Qed.


(** X6. When the path [main] resolved is a directory, whether given
    with [--path] or found by the search, the run ends with code 4: the
    load step raises, the handler prints the message, and nothing later
    runs. *)
Theorem main_directory_gives_4 (args : Namespace) (w : World)
  (file_path : Path) (w1 : World) :
  resolve_path args w = (Ok (inr file_path), w1) ->
  path_is_dir w file_path = true ->
  main_args args w
  = (Ok 4%Z,
     printed ("Error loading CSV: " ++ exc_msg (os_error "Is a directory" file_path))
       (log (CallOpenRead file_path)
          (printed ("Loading CSV: " ++ str file_path
                    ++ " (encoding=" ++ args_encoding args ++ ")") w1))).
Proof.
  intros Hr Hd.
  destruct (keeps_resolve_path args w) as (Hf & Hc & _).
  rewrite Hr in Hf, Hc. simpl in Hf, Hc.
  rewrite main_args_run, Hr, load_run, load_csv_run. cbv zeta.
  rewrite (locate_same w _ file_path) by (simpl; assumption).
  unfold path_is_dir in Hd.
  destruct (locate w file_path) as [[b|es]|]; try discriminate. reflexivity.
Qed.

(** X7. An empty string given to [--path] or [--save-pickle] counts as
    no value: with [--path ''] the search runs as without the option,
    and with [--save-pickle ''] nothing is written. *)
Theorem main_empty_option_values (args : Namespace) (w : World)
  (path_ save : option string) :
  main_args (with_paths (Some "") save args) w
  = main_args (with_paths None save args) w /\
  main_args (with_paths path_ (Some "") args) w
  = main_args (with_paths path_ None args) w /\
  fs (snd (main_args (with_paths path_ (Some "") args) w)) = fs w.
Proof.
  split; [reflexivity|]. split; [reflexivity|].
  destruct (main_args_world (with_paths path_ (Some "") args) w)
    as (_ & _ & [Hfs|[Hon _]]); [exact Hfs|discriminate].
Qed.

End Runs.



(** What the script makes of three unusual inputs: two leading slashes
    are kept when a path is printed, three are one; the substring stage
    folds case beyond ASCII, with the case mapping of the library at
    hand; a name too long for a directory entry ends the run in the
    existence test. *)
Example unusual_inputs :
  str (Path_ "//nothere") = "//nothere" /\
  str (Path_ "///nothere") = "/nothere" /\
  stdout (snd (@main_args Demo.lib
                 (mkArgs (Some "//nothere") "latin-1" false 5 None) Demo.w_here))
  = ["File not found at provided path: //nothere"] /\
  @lower Demo.lib ("x_CAF" ++ Demo.E_acute ++ ".csv")%string
  = ("x_caf" ++ Demo.e_acute ++ ".csv")%string /\
  fst (@find_file_by_name Demo.lib ("caf" ++ Demo.e_acute ++ ".csv")%string
         Demo.user
         (Demo.at_home [(("x_CAF" ++ Demo.E_acute ++ ".csv")%string,
                         File Demo.no_id)]))
  = Ok (Some (mkPath true
                ["home"; "user"; ("x_CAF" ++ Demo.E_acute ++ ".csv")%string])) /\
  @script Demo.lib Demo.args_long_path Demo.w_here
  = (mkExit 1 (Some (mkExc "OSError"
                       ("File name too long: '" ++ Demo.long_name ++ "'"))),
     log (CallExists (Path_ Demo.long_name)) Demo.w_here).
Proof. repeat split; vm_compute; reflexivity. Qed.


(** [--path Alex_emails_march_04.csv --save-pickle out/new.pkl]: three
    requests, none of them a search. *)
Lemma main_explicit_path_requests_witness :
  exists l,
    calls (snd (@main_args Demo.lib
                  (mkArgs (Some "Alex_emails_march_04.csv") "latin-1" false 5
                     (Some "out/new.pkl")) Demo.w_here))
    = calls Demo.w_here ++ CallExists Demo.dataset :: l /\
    (l = [] \/ l = [CallOpenRead Demo.dataset] \/
     l = [CallOpenRead Demo.dataset; CallOpenWrite (Path_ "out/new.pkl")]) /\
    existsb is_rglob (CallExists Demo.dataset :: l) = false.
Proof.
  apply (@main_explicit_path_requests Demo.lib
           (mkArgs (Some "Alex_emails_march_04.csv") "latin-1" false 5
              (Some "out/new.pkl")) Demo.w_here "Alex_emails_march_04.csv").
  - reflexivity.
  - discriminate.
Defined.


(** [--path out] on a tree where [out] is a directory. *)
Lemma main_directory_gives_4_witness :
  path_is_dir Demo.w_here (Path_ "out") = true /\
  fst (@main_args Demo.lib (mkArgs (Some "out") "latin-1" false 5 None) Demo.w_here)
  = Ok 4%Z.
Proof.
  split; [reflexivity|].
  rewrite (@main_directory_gives_4 Demo.lib
             (mkArgs (Some "out") "latin-1" false 5 None) Demo.w_here
             (Path_ "out") (log (CallExists (Path_ "out")) Demo.w_here));
    reflexivity.
Defined.

(** ** Reading the command line *)

Lemma plain_argument_not_option (v : string) :
  plain_argument v = true ->
  v <> "--no-index" /\ v <> "--path" /\ v <> "-p" /\ v <> "--encoding" /\
  v <> "-e" /\ v <> "--head" /\ v <> "-n" /\ v <> "--save-pickle" /\ v <> "-s".
Proof.
  intros Hv. repeat split; intros ->; discriminate Hv.
Qed.

Lemma mem_cons (x a : string) (l : list string) :
  Str.mem x (a :: l) = String.eqb x a || Str.mem x l.
Proof. reflexivity. Qed.

(** What a successful reading did to each field, by the option strings
    that occur in the list. *)
Lemma parse_from_fields (n : nat) :
  forall argv ns args,
    length argv <= n ->
    parse_from ns argv = Some args ->
    (args_no_index args = args_no_index ns || Str.mem "--no-index" argv) /\
    (~ In "--path" argv -> ~ In "-p" argv -> args_path args = args_path ns) /\
    (~ In "--encoding" argv -> ~ In "-e" argv ->
     args_encoding args = args_encoding ns) /\
    (~ In "--save-pickle" argv -> ~ In "-s" argv ->
     args_save_pickle args = args_save_pickle ns).
Proof.
  induction n as [|n IH]; intros argv ns args Hlen Hp.
  - destruct argv; [|simpl in Hlen; lia]. injection Hp as <-.
    rewrite orb_false_r. now repeat split.
  - destruct argv as [|opt rest].
    { injection Hp as <-. rewrite orb_false_r. now repeat split. }
    simpl in Hp, Hlen.
    destruct (String.eqb_spec opt "--no-index") as [->|Hno].
    + apply IH in Hp; [|lia]. destruct Hp as (H1 & H2 & H3 & H4).
      simpl in H1, H2, H3, H4.
      rewrite mem_cons, String.eqb_refl, orb_true_r.
      repeat split.
      * rewrite H1. reflexivity.
      * intros Ha Hb. apply H2; intros Hin; [apply Ha|apply Hb]; now right.
      * intros Ha Hb. apply H3; intros Hin; [apply Ha|apply Hb]; now right.
      * intros Ha Hb. apply H4; intros Hin; [apply Ha|apply Hb]; now right.
    + destruct rest as [|v rest']; [discriminate|]. simpl in Hlen.
      destruct (plain_argument v) eqn:Hv; [|discriminate]. simpl in Hp.
      destruct (plain_argument_not_option v Hv) as (Hv0 & _).
      assert (Hopt : String.eqb "--no-index" opt = false)
        by (apply String.eqb_neq; congruence).
      assert (Hval : String.eqb "--no-index" v = false)
        by (apply String.eqb_neq; congruence).
      rewrite !mem_cons, Hopt, Hval. simpl orb.
      assert (Hrest : forall s, ~ In s (opt :: v :: rest') -> ~ In s rest')
        by (intros s Hs Hin; apply Hs; right; right; exact Hin).
      assert (Hhead : forall s, ~ In s (opt :: v :: rest') -> opt <> s)
        by (intros s Hs ->; apply Hs; now left).
      destruct (String.eqb_spec opt "--path") as [->|Hq1];
        [|destruct (String.eqb_spec opt "-p") as [->|Hq2]]; simpl in Hp.
      1,2: apply IH in Hp; [|lia]; destruct Hp as (H1 & H2 & H3 & H4);
        simpl in H1, H2, H3, H4; repeat split;
        [exact H1
        |intros Ha Hb; exfalso; first [now apply (Hhead _ Ha)|now apply (Hhead _ Hb)]
        |intros Ha Hb; apply H3; now apply Hrest
        |intros Ha Hb; apply H4; now apply Hrest].
      destruct (String.eqb_spec opt "--encoding") as [->|Hq3];
        [|destruct (String.eqb_spec opt "-e") as [->|Hq4]]; simpl in Hp.
      1,2: apply IH in Hp; [|lia]; destruct Hp as (H1 & H2 & H3 & H4);
        simpl in H1, H2, H3, H4; repeat split;
        [exact H1
        |intros Ha Hb; apply H2; now apply Hrest
        |intros Ha Hb; exfalso; first [now apply (Hhead _ Ha)|now apply (Hhead _ Hb)]
        |intros Ha Hb; apply H4; now apply Hrest].
      destruct (String.eqb opt "--head" || String.eqb opt "-n").
      { destruct (parse_int v) as [k|]; [|discriminate].
        apply IH in Hp; [|lia]. destruct Hp as (H1 & H2 & H3 & H4).
        simpl in H1, H2, H3, H4. repeat split;
          [exact H1
          |intros Ha Hb; apply H2; now apply Hrest
          |intros Ha Hb; apply H3; now apply Hrest
          |intros Ha Hb; apply H4; now apply Hrest]. }
      destruct (String.eqb_spec opt "--save-pickle") as [->|Hq5];
        [|destruct (String.eqb_spec opt "-s") as [->|Hq6]]; simpl in Hp;
        [| |discriminate].
      1,2: apply IH in Hp; [|lia]; destruct Hp as (H1 & H2 & H3 & H4);
        simpl in H1, H2, H3, H4; repeat split;
        [exact H1
        |intros Ha Hb; apply H2; now apply Hrest
        |intros Ha Hb; apply H3; now apply Hrest
        |intros Ha Hb; exfalso; first [now apply (Hhead _ Ha)|now apply (Hhead _ Hb)]].
Qed.

(** X8. For every argument list that is read: [no_index] is set exactly
    when [--no-index] occurs in the list; and an option that does not
    occur, under either of its spellings, leaves its default: no path
    (so the search runs), the encoding [latin-1], no snapshot. *)
Theorem parse_args_absent_options (argv : list string) (args : Namespace) :
  parse_args argv = Some args ->
  (args_no_index args = true <-> In "--no-index" argv) /\
  (~ In "--path" argv -> ~ In "-p" argv ->
   args_path args = None /\ Str.truthy (args_path args) = false) /\
  (~ In "--encoding" argv -> ~ In "-e" argv -> args_encoding args = "latin-1") /\
  (~ In "--save-pickle" argv -> ~ In "-s" argv ->
   args_save_pickle args = None /\ Str.truthy (args_save_pickle args) = false).
Proof.
  intros Hp.
  destruct (parse_from_fields (length argv) argv defaults args (Nat.le_refl _) Hp)
    as (H1 & H2 & H3 & H4).
  simpl in H1, H2, H3, H4. repeat split.
  - rewrite H1. apply mem_In.
  - rewrite H1. apply mem_In.
  - now apply H2.
  - rewrite H2 by assumption. reflexivity.
  - now apply H3.
  - now apply H4.
  - rewrite H4 by assumption. reflexivity.
Qed.

Lemma parse_args_absent_options_witness :
  (args_no_index (mkArgs None "latin-1" true 2 None) = true <->
   In "--no-index" ["-n"; "2"; "--no-index"]) /\
  args_path (mkArgs None "latin-1" true 2 None) = None /\
  args_encoding (mkArgs None "latin-1" true 2 None) = "latin-1".
Proof.
  destruct (parse_args_absent_options ["-n"; "2"; "--no-index"]
              (mkArgs None "latin-1" true 2 None) eq_refl)
    as (Hflag & Hpath & Henc & _).
  split; [exact Hflag|]. split.
  - apply Hpath; simpl; intros [Hs|[Hs|[Hs|[]]]]; discriminate.
  - apply Henc; simpl; intros [Hs|[Hs|[Hs|[]]]]; discriminate.
Defined.

Lemma long_option_plain (v : string) :
  plain_argument v = true -> long_option v = v.
Proof.
  intros Hv.
  destruct (plain_argument_not_option v Hv) as (_ & _ & Hp & _ & He & _ & Hn & _ & Hs).
  unfold long_option.
  apply String.eqb_neq in Hp, He, Hn, Hs. now rewrite Hp, He, Hn, Hs.
Qed.

Lemma long_option_not_plain (v : string) :
  plain_argument v = false -> plain_argument (long_option v) = false.
Proof.
  intros Hv. unfold long_option.
  destruct (String.eqb v "-p"); [reflexivity|].
  destruct (String.eqb v "-e"); [reflexivity|].
  destruct (String.eqb v "-n"); [reflexivity|].
  destruct (String.eqb v "-s"); [reflexivity|exact Hv].
Qed.

Lemma parse_from_long_option (n : nat) :
  forall argv ns,
    length argv <= n ->
    parse_from ns (map long_option argv) = parse_from ns argv.
Proof.
  induction n as [|n IH]; intros argv ns Hlen.
  - destruct argv; [reflexivity|simpl in Hlen; lia].
  - destruct argv as [|opt rest]; [reflexivity|]. simpl in Hlen.
    assert (Hvalue : forall o ns',
              String.eqb o "--no-index" = false ->
              parse_from ns' (o :: map long_option rest) = parse_from ns' (o :: rest)).
    { intros o ns' Ho. simpl. rewrite Ho.
      destruct rest as [|v rest']; [reflexivity|]. simpl map. simpl in Hlen.
      destruct (plain_argument v) eqn:Hv.
      - rewrite (long_option_plain v Hv), Hv. simpl negb. cbv iota.
        rewrite !IH by lia.
        destruct (parse_int v); [now rewrite IH by lia|reflexivity].
      - rewrite (long_option_not_plain v Hv). reflexivity. }
    simpl map. unfold long_option at 1.
    destruct (String.eqb_spec opt "-p") as [->|_].
    { rewrite Hvalue by reflexivity. simpl.
      destruct rest as [|v rest']; reflexivity. }
    destruct (String.eqb_spec opt "-e") as [->|_].
    { rewrite Hvalue by reflexivity. simpl.
      destruct rest as [|v rest']; reflexivity. }
    destruct (String.eqb_spec opt "-n") as [->|_].
    { rewrite Hvalue by reflexivity. simpl.
      destruct rest as [|v rest']; reflexivity. }
    destruct (String.eqb_spec opt "-s") as [->|_].
    { rewrite Hvalue by reflexivity. simpl.
      destruct rest as [|v rest']; reflexivity. }
    destruct (String.eqb opt "--no-index") eqn:Hno.
    + simpl. rewrite Hno. apply IH. lia.
    + now apply Hvalue.
Qed.

Section Spellings.

Context `{Library}.

(** X9. The short and the long spelling of an option are read alike:
    writing every [-p], [-e], [-n] and [-s] of an argument list as
    [--path], [--encoding], [--head] and [--save-pickle] changes neither
    whether the list is read nor the namespace that results, and so not
    the run of [main]. *)
Theorem parse_args_long_option (argv : list string) :
  parse_args (map long_option argv) = parse_args argv /\
  main (map long_option argv) = main argv.
Proof.
  assert (Hp : parse_args (map long_option argv) = parse_args argv)
    by (apply (parse_from_long_option (length argv)); lia).
  split; [exact Hp|]. unfold main. now rewrite Hp.
Qed.

End Spellings.

(** ** Runs that leave the tree alone can be repeated *)

Lemma stable_ret {A} (a : A) : stable (ret a).
Proof.
  intros w1 w2 Hs. repeat split; try apply Hs.
  exists []. simpl. now rewrite !app_nil_r.
Qed.

Lemma stable_lift {A} (r : Res A) : stable (lift r).
Proof.
  intros w1 w2 Hs. repeat split; try apply Hs.
  exists []. simpl. now rewrite !app_nil_r.
Qed.

Lemma stable_print (s : string) : stable (print s).
Proof.
  intros w1 w2 Hs. repeat split; try apply Hs. now exists [s].
Qed.

Lemma os_stat_same (w1 w2 : World) (p : Path) :
  same_tree w1 w2 -> os_stat w1 p = os_stat w2 p.
Proof.
  intros [Hf Hc]. unfold os_stat, locate, stat_errno, start, abs_parts.
  now rewrite Hf, Hc.
Qed.

Lemma stable_resolve_cwd : stable resolve_cwd.
Proof.
  intros w1 w2 [Hf Hc]. unfold resolve_cwd. rewrite Hf, Hc.
  destruct (get (fs w2) (cwd w2)) as [[bytes|es]|]; simpl;
    repeat split; try assumption; exists []; now rewrite !app_nil_r.
Qed.

Lemma stable_bind {A B} (m : M A) (k : A -> M B) :
  stable m -> (forall a, stable (k a)) -> stable (bind m k).
Proof.
  intros Hm Hk w1 w2 Hs. unfold bind.
  destruct (Hm w1 w2 Hs) as (Hr & Hs' & l & Hl1 & Hl2).
  destruct (m w1) as [[a|e] u1], (m w2) as [[a2|e2] u2];
    simpl in *; try discriminate.
  - injection Hr as <-.
    destruct (Hk a u1 u2 Hs') as (Hr' & Hs'' & l' & Hl1' & Hl2').
    split; [exact Hr'|]. split; [exact Hs''|].
    exists (l ++ l'). now rewrite Hl1', Hl2', Hl1, Hl2, !app_assoc.
  - injection Hr as <-. split; [reflexivity|]. split; [exact Hs'|]. eauto.
Qed.

Lemma stable_try_except {A} (m : M A) (h : Exception -> M A) :
  stable m -> (forall e, stable (h e)) -> stable (try_except m h).
Proof.
  intros Hm Hh w1 w2 Hs. unfold try_except.
  destruct (Hm w1 w2 Hs) as (Hr & Hs' & l & Hl1 & Hl2).
  destruct (m w1) as [[a|e] u1], (m w2) as [[a2|e2] u2];
    simpl in *; try discriminate.
  - split; [exact Hr|]. split; [exact Hs'|]. eauto.
  - injection Hr as <-.
    destruct (Hh e u1 u2 Hs') as (Hr' & Hs'' & l' & Hl1' & Hl2').
    split; [exact Hr'|]. split; [exact Hs''|].
    exists (l ++ l'). now rewrite Hl1', Hl2', Hl1, Hl2, !app_assoc.
Qed.

Create HintDb stable discriminated.

#[local] Hint Resolve stable_ret stable_lift stable_print
  stable_resolve_cwd : stable.

Section Repeat.

Context `{Library}.

Lemma stable_exists (p : Path) : stable (exists_ p).
Proof.
  intros w1 w2 Hs. unfold exists_. rewrite (os_stat_same w1 w2 p Hs).
  destruct Hs as [Hf Hc].
  destruct (os_stat w2 p) as [e|n]; [destruct (ignore_error e)|]; simpl;
    repeat split; try assumption; exists []; now rewrite !app_nil_r.
Qed.

#[local] Hint Resolve stable_exists : stable.

Lemma select_from_same (w1 w2 : World) (pats : list string) :
  same_tree w1 w2 ->
  forall p, select_from w1 pats p = select_from w2 pats p.
Proof.
  intros Hs.
  assert (Hloc : forall p, locate w1 p = locate w2 p)
    by (intros p; destruct Hs; apply locate_same; congruence).
  induction pats as [|pat rest IH]; intros p; [reflexivity|].
  simpl.
  destruct (String.eqb pat ""); [reflexivity|].
  destruct (String.eqb pat "**").
  - unfold iterate_directories. rewrite Hloc. f_equal.
    apply flat_map_ext. intros q. apply IH.
  - destruct (is_wildcard_pattern pat).
    + rewrite Hloc. destruct (locate w2 p) as [[bytes|es]|]; try reflexivity.
      apply flat_map_ext. intros e.
      destruct (_ && _); [apply IH|reflexivity].
    + rewrite (os_stat_same w1 w2 _ Hs).
      destruct (os_stat w2 (child p pat)) as [e|n]; [reflexivity|].
      destruct (_ || _); [apply IH|reflexivity].
Qed.

Lemma glob_result_same (w1 w2 : World) (root : Path) (pattern : string) :
  same_tree w1 w2 ->
  glob_result w1 root pattern = glob_result w2 root pattern.
Proof.
  intros Hs. unfold glob_result.
  destruct (Str.startswith "/" pattern); [reflexivity|].
  destruct (existsb bad_part _); [reflexivity|].
  rewrite (os_stat_same w1 w2 root Hs).
  destruct (os_stat w2 root) as [e|[bytes|es]]; try reflexivity.
  apply (select_from_same w1 w2 _ Hs).
Qed.

Lemma stable_rglob (root : Path) (pattern : string) : stable (rglob root pattern).
Proof.
  intros w1 w2 Hs. unfold rglob. rewrite (glob_result_same w1 w2 _ _ Hs).
  split; [reflexivity|]. split; [exact Hs|].
  exists []. simpl. now rewrite !app_nil_r.
Qed.

Lemma stable_read_csv (p : Path) (encoding : string) : stable (read_csv p encoding).
Proof.
  intros w1 w2 Hs. unfold read_csv. rewrite (os_stat_same w1 w2 p Hs).
  destruct Hs as [Hf Hc].
  destruct (os_stat w2 p) as [e|[bytes|es]];
    [repeat split; try assumption; exists []; simpl; now rewrite !app_nil_r|
    |repeat split; try assumption; exists []; simpl; now rewrite !app_nil_r].
  destruct (parse_csv bytes encoding) as [e|[header body]];
    repeat split; try assumption; exists []; simpl; now rewrite !app_nil_r.
Qed.

Lemma stable_to_pickle (df : DataFrame) (out : Path) : stable (to_pickle df out).
Proof.
  intros w1 w2 [Hf Hc]. unfold to_pickle, abs_parts. rewrite Hf, Hc.
  destruct (write_file _ _ _) as [t|]; simpl;
    repeat split; try assumption; exists []; now rewrite !app_nil_r.
Qed.

Lemma stable_find_file_by_name (name_ : string) (root : Path) :
  stable (find_file_by_name name_ root).
Proof.
  unfold find_file_by_name. apply stable_bind; [auto with stable|].
  intros [|]; [auto with stable|].
  apply stable_bind; [apply stable_rglob|].
  intros [|[p|e] rest]; [|auto with stable|auto with stable].
  apply stable_bind; [apply stable_rglob|auto with stable].
Qed.

Lemma stable_main_args (args : Namespace) : stable (main_args args).
Proof.
  unfold main_args. apply stable_bind.
  - unfold resolve_path. apply stable_bind; [auto with stable|]. intros root.
    destruct (Str.truthy (args_path args)).
    + apply stable_bind; [auto with stable|].
      intros [|]; simpl; [auto with stable|].
      apply stable_bind; auto with stable.
    + apply stable_bind; [apply stable_find_file_by_name|].
      intros [p|]; [auto with stable|].
      apply stable_bind; auto with stable.
  - intros [code|file_path]; [auto with stable|].
    apply stable_bind.
    + unfold load. apply stable_bind; [auto with stable|]. intros _.
      apply stable_try_except.
      * apply stable_bind; [|auto with stable].
        unfold load_csv. apply stable_bind; [apply stable_read_csv|].
        intros df. destruct (if args_no_index args then None else Some "email_id");
          [|auto with stable].
        destruct (_ && _); auto with stable.
      * intros e. apply stable_bind; auto with stable.
    + intros [code|df]; [auto with stable|].
      unfold report, summary, preview, snapshot.
      repeat (apply stable_bind; [|intros _]); auto with stable.
      * destruct (negb _); [|auto with stable].
        apply stable_bind; auto with stable.
      * destruct (Str.truthy _); [|auto with stable].
        apply stable_bind; [apply stable_to_pickle|auto with stable].
Qed.

(** X10. A run without [--save-pickle] can be repeated: started again in
    the world the first run left, [main] ends in the same way and prints
    the same lines once more. *)
Theorem main_repeatable (args : Namespace) (w : World) :
  Str.truthy (args_save_pickle args) = false ->
  fst (main_args args (snd (main_args args w))) = fst (main_args args w) /\
  exists l,
    stdout (snd (main_args args w)) = stdout w ++ l /\
    stdout (snd (main_args args (snd (main_args args w)))) = stdout w ++ l ++ l.
Proof.
  intros Hoff.
  destruct (main_args_world args w) as (Hc & _ & Hfs). cbv zeta in Hfs.
  assert (Hsame : same_tree w (snd (main_args args w))).
  { split; [|now symmetry]. destruct Hfs as [Hfs|[Hon _]]; congruence. }
  destruct (stable_main_args args w (snd (main_args args w)) Hsame)
    as (Hr & _ & l & Hl1 & Hl2).
  split; [now symmetry|]. exists l. split; [exact Hl1|].
  now rewrite Hl2, Hl1, app_assoc.
Qed.

(** X11. A root that is not a directory (a file, or nothing at all) is
    no error: for a plain name the resolver then returns the name itself
    when it exists relative to the current directory, and [None]
    otherwise, after both searches came back empty.  The name and the
    root are such that the kernel does not refuse to look them up. *)
Theorem find_file_by_name_without_root (n : string) (root : Path) (w : World) :
  plain_name n = true ->
  refused w (Path_ n) = false -> refused w root = false ->
  path_is_dir w root = false ->
  find_file_by_name n root w
  = if path_exists w (Path_ n)
    then (Ok (Some (Path_ n)), log (CallExists (Path_ n)) w)
    else (Ok None,
          log (CallRglob root "*.csv")
            (log (CallRglob root n) (log (CallExists (Path_ n)) w))).
Proof.
  intros Hn Hs Hr Hroot. rewrite find_file_by_name_run. cbv zeta.
  rewrite Hs.
  destruct (path_exists w (Path_ n)); [reflexivity|].
  destruct (plain_name_parts n Hn) as (Ha & _ & _ & Hb & _).
  assert (Hempty : forall pattern,
            Str.startswith "/" pattern = false ->
            existsb bad_part (pattern_parts pattern) = false ->
            glob_result w root pattern = []).
  { intros pattern Hpa Hpb. unfold glob_result. rewrite Hpa, Hpb.
    rewrite path_is_dir_stat in Hroot. unfold refused in Hr.
    destruct (os_stat w root) as [e|[bytes|es]]; try reflexivity;
      [|discriminate].
    apply negb_false_iff in Hr. now rewrite Hr. }
  rewrite (Hempty n Ha) by (rewrite (pattern_parts_plain n Hn); simpl;
                            now rewrite Hb).
  now rewrite (Hempty "*.csv") by reflexivity.
Qed.

End Repeat.

(** The default run on the tree with the dataset in the current
    directory, twice. *)
Lemma main_repeatable_witness :
  fst (@main_args Demo.lib defaults
         (snd (@main_args Demo.lib defaults Demo.w_here)))
  = fst (@main_args Demo.lib defaults Demo.w_here) /\
  exists l,
    stdout (snd (@main_args Demo.lib defaults Demo.w_here))
    = stdout Demo.w_here ++ l /\
    stdout (snd (@main_args Demo.lib defaults
                   (snd (@main_args Demo.lib defaults Demo.w_here))))
    = stdout Demo.w_here ++ l ++ l.
Proof.
  apply (@main_repeatable Demo.lib defaults Demo.w_here). reflexivity.
Defined.

(** The resolver with a root that does not exist. *)
Lemma find_file_by_name_without_root_witness :
  path_is_dir Demo.w_nested (mkPath true ["nowhere"]) = false /\
  fst (@find_file_by_name Demo.lib target_name (mkPath true ["nowhere"])
         Demo.w_nested) = Ok None /\
  fst (@find_file_by_name Demo.lib target_name (mkPath true ["nowhere"])
         Demo.w_here) = Ok (Some Demo.dataset).
Proof.
  split; [reflexivity|]. split.
  - rewrite (@find_file_by_name_without_root Demo.lib target_name
               (mkPath true ["nowhere"]) Demo.w_nested); reflexivity.
  - rewrite (@find_file_by_name_without_root Demo.lib target_name
               (mkPath true ["nowhere"]) Demo.w_here); reflexivity.
Defined.

(** ** Errors and causes *)

Section Causes.

Context `{Library}.

(** X12. An absolute name that does not exist is an error, not an
    absence: the existence test fails, the search refuses the
    non-relative pattern, and [find_file_by_name] raises
    [NotImplementedError] where a relative name would give [None]. *)
Theorem find_file_by_name_absolute_name (n : string) (root : Path) (w : World) :
  Str.startswith "/" n = true ->
  fst (exists_ (Path_ n) w) = Ok false ->
  find_file_by_name n root w
  = (Raise (mkExc "NotImplementedError" "Non-relative patterns are unsupported"),
     log (CallRglob root n) (log (CallExists (Path_ n)) w)).
Proof.
  intros Ha Hc. rewrite find_file_by_name_run. cbv zeta.
  destruct (exists_false _ _ Hc) as [-> ->].
  unfold glob_result. now rewrite Ha.
Qed.

(** X13. Each exit code names its cause: 2 is returned only for an
    explicit path that does not exist; 3 only when there is no explicit
    path and the search found nothing; 4 only when the path was resolved
    and [load_csv] raised; 0 only when the path was resolved and the
    table loaded. *)
Theorem main_exit_code_causes (args : Namespace) (w : World) :
  (fst (main_args args w) = Ok 2%Z ->
   Str.truthy (args_path args) = true /\
   path_exists w (Path_ (match args_path args with Some s => s | None => "" end))
   = false)
  /\
  (fst (main_args args w) = Ok 3%Z ->
   Str.truthy (args_path args) = false /\
   fst (find_file_by_name target_name (mkPath true (cwd w)) w) = Ok None)
  /\
  (fst (main_args args w) = Ok 4%Z ->
   exists file_path w1 exc,
     resolve_path args w = (Ok (inr file_path), w1) /\
     fst (load_csv file_path (args_encoding args)
            (if args_no_index args then None else Some "email_id")
            (printed ("Loading CSV: " ++ str file_path
                      ++ " (encoding=" ++ args_encoding args ++ ")") w1))
     = Raise exc)
  /\
  (fst (main_args args w) = Ok 0%Z ->
   exists file_path w1 df,
     resolve_path args w = (Ok (inr file_path), w1) /\
     fst (load_csv file_path (args_encoding args)
            (if args_no_index args then None else Some "email_id")
            (printed ("Loading CSV: " ++ str file_path
                      ++ " (encoding=" ++ args_encoding args ++ ")") w1))
     = Ok df).
Proof.
  assert (Hlater : forall file_path w1 code,
    fst (match load args file_path w1 with
         | (Ok (inl c), w2) => (Ok c, w2)
         | (Ok (inr df), w2) => report args df w2
         | (Raise e, w2) => (Raise e, w2)
         end) = Ok code ->
    (code = 4%Z /\
     exists exc,
       fst (load_csv file_path (args_encoding args)
              (if args_no_index args then None else Some "email_id")
              (printed ("Loading CSV: " ++ str file_path
                        ++ " (encoding=" ++ args_encoding args ++ ")") w1))
       = Raise exc) \/
    (code = 0%Z /\
     exists df,
       fst (load_csv file_path (args_encoding args)
              (if args_no_index args then None else Some "email_id")
              (printed ("Loading CSV: " ++ str file_path
                        ++ " (encoding=" ++ args_encoding args ++ ")") w1))
       = Ok df)).
  { intros file_path w1 code. rewrite load_run.
    destruct (load_csv _ _ _ _) as [[df|exc] w2].
    - rewrite report_run.
      destruct (snapshot args df _) as [[[]|e] w3]; simpl; [|discriminate].
      intros [= <-]. right. eauto.
    - simpl. intros [= <-]. left. eauto. }
  rewrite main_args_run.
  destruct (resolve_path args w) as [[[code|file_path]|e] w1] eqn:Hres.
  - (* the path was not resolved: code 2 or 3 *)
    rewrite resolve_path_run in Hres. cbv zeta in Hres.
    destruct (cwd_ok w); [|discriminate].
    destruct (Str.truthy (args_path args)).
    + destruct (refused w _); [discriminate|].
      destruct (path_exists w _) eqn:Hex; [discriminate|].
      injection Hres as <- _. simpl.
      repeat split; discriminate.
    + destruct (find_file_by_name _ _ w) as [[[p|]|e] w0];
        try discriminate.
      injection Hres as <- _. simpl.
      repeat split; discriminate.
  - (* the path was resolved: code 4 or 0 *)
    split; [|split; [|split]]; intros Hcode;
      destruct (Hlater _ _ _ Hcode) as [[Hc Hexc]|[Hc Hdf]];
      try discriminate.
    + destruct Hexc as [exc Hexc]. eauto 6.
    + destruct Hdf as [df Hdf]. eauto 6.
  - simpl. repeat split; discriminate.
Qed.

End Causes.

(** An absolute name that is nowhere. *)
Lemma find_file_by_name_absolute_name_witness :
  fst (@exists_ Demo.lib (Path_ "/nowhere/data.csv") Demo.w_here) = Ok false /\
  fst (@find_file_by_name Demo.lib "/nowhere/data.csv" Demo.user Demo.w_here)
  = Raise (mkExc "NotImplementedError" "Non-relative patterns are unsupported").
Proof.
  split; [reflexivity|].
  rewrite (@find_file_by_name_absolute_name Demo.lib "/nowhere/data.csv"
             Demo.user Demo.w_here); reflexivity.
Defined.
